(** * Crontab editor: parser and reconciliation engine

    A shallow embedding of [main.go]: [parseCrontabOutput] (the parser),
    the two loops of [updateCrontab] that rebuild the crontab text (the
    reconciler) and the decision [getCrontab] takes on the outcome of
    [crontab -l].  Go strings are byte sequences and are modelled by
    [string] (a list of 8-bit [ascii] characters).

    The file first models the library functions the program calls
    ([strings], [bufio], [regexp], [unicode/utf8]), then the program, then
    states what the specification says of it.  The facts follow: on the
    library functions, on the shape of the reconciled text, and, claim by
    claim (C1 to C10), on the parser and the reconciler.  *)

From Stdlib Require Import Bool Arith NArith ZArith Lia List.
From Stdlib Require Import Ascii String.
Import ListNotations.

Local Open Scope list_scope.
Local Open Scope string_scope.

(* ================================================================== *)
(** * Bytes and elementary string operations *)

Definition byte (c : ascii) : N := N_of_ascii c.

Definition LF : ascii := ascii_of_N 10.
Definition CR : ascii := ascii_of_N 13.

(** The one-byte string holding a newline, written ["\n"] in Go. *)
Definition nl : string := String LF "".

(** The one-byte string holding a carriage return, ["\r"]. *)
Definition CRs : string := String CR "".

(** [s[n:]] *)
Fixpoint drop (n : nat) (s : string) : string :=
  match n, s with
  | O, _ => s
  | S n', String _ r => drop n' r
  | S _, EmptyString => EmptyString
  end.

(** [s[:n]] *)
Fixpoint take (n : nat) (s : string) : string :=
  match n, s with
  | S n', String c r => String c (take n' r)
  | _, _ => EmptyString
  end.

Fixpoint rev (s : string) : string :=
  match s with
  | EmptyString => EmptyString
  | String c r => rev r ++ String c EmptyString
  end.

(** Byte membership; [strings.Contains(s, "=")] for a one-byte needle. *)
Fixpoint hasByte (c : ascii) (s : string) : bool :=
  match s with
  | EmptyString => false
  | String d r => Ascii.eqb d c || hasByte c r
  end.

(** Concatenation of the pieces written to a buffer one after the other. *)
Fixpoint concatAll (l : list string) : string :=
  match l with
  | [] => EmptyString
  | x :: r => x ++ concatAll r
  end.

(* ================================================================== *)
(** * The Go library functions the program calls *)

(** ** [unicode/utf8] and [unicode] *)
Module utf8.

Local Open Scope N_scope.

Definition RuneError : N := 0xFFFD.
Definition RuneSelf : N := 0x80.

(** The table [first] of the Go library, decoded: for a leading byte, the
    size of the sequence and the range accepted for the second byte;
    [None] for a byte that cannot begin a sequence. *)
Definition first (s0 : N) : option (nat * N * N) :=
  if (s0 <? 0xC2) then None
  else if (s0 <=? 0xDF) then Some (2%nat, 0x80, 0xBF)
  else if (s0 =? 0xE0) then Some (3%nat, 0xA0, 0xBF)
  else if (s0 <=? 0xEC) then Some (3%nat, 0x80, 0xBF)
  else if (s0 =? 0xED) then Some (3%nat, 0x80, 0x9F)
  else if (s0 <=? 0xEF) then Some (3%nat, 0x80, 0xBF)
  else if (s0 =? 0xF0) then Some (4%nat, 0x90, 0xBF)
  else if (s0 <=? 0xF3) then Some (4%nat, 0x80, 0xBF)
  else if (s0 =? 0xF4) then Some (4%nat, 0x80, 0x8F)
  else None.

Definition cont (b : N) : bool := (0x80 <=? b) && (b <=? 0xBF).

(** [utf8.DecodeRuneInString]: the first rune of [s] and its width in
    bytes; [(RuneError, 1)] for an invalid or truncated sequence and
    [(RuneError, 0)] for the empty string. *)
Definition DecodeRuneInString (s : string) : N * nat :=
  match s with
  | EmptyString => (RuneError, 0%nat)
  | String c0 t0 =>
    let s0 := byte c0 in
    if (s0 <? RuneSelf) then (s0, 1%nat)
    else
      match first s0 with
      | None => (RuneError, 1%nat)
      | Some (sz, lo, hi) =>
        match t0 with
        | EmptyString => (RuneError, 1%nat)
        | String c1 t1 =>
          let s1 := byte c1 in
          if (s1 <? lo) || (hi <? s1) then (RuneError, 1%nat)
          else if (sz <=? 2)%nat
          then (N.lor (N.shiftl (N.land s0 0x1F) 6) (N.land s1 0x3F), 2%nat)
          else
            match t1 with
            | EmptyString => (RuneError, 1%nat)
            | String c2 t2 =>
              let s2 := byte c2 in
              if negb (cont s2) then (RuneError, 1%nat)
              else if (sz <=? 3)%nat
              then (N.lor (N.shiftl (N.land s0 0x0F) 12)
                      (N.lor (N.shiftl (N.land s1 0x3F) 6) (N.land s2 0x3F)),
                    3%nat)
              else
                match t2 with
                | EmptyString => (RuneError, 1%nat)
                | String c3 _ =>
                  let s3 := byte c3 in
                  if negb (cont s3) then (RuneError, 1%nat)
                  else (N.lor (N.shiftl (N.land s0 0x07) 18)
                          (N.lor (N.shiftl (N.land s1 0x3F) 12)
                             (N.lor (N.shiftl (N.land s2 0x3F) 6)
                                (N.land s3 0x3F))),
                        4%nat)
                end
            end
        end
      end
  end.

(** [utf8.RuneStart]: the byte is not a continuation byte. *)
Definition RuneStart (b : N) : bool := negb (N.land b 0xC0 =? 0x80).

(** The number of bytes, counted from the end, at which
    [utf8.DecodeLastRuneInString] starts to decode a string whose last byte
    is not ASCII; the argument holds the bytes before the last one, the
    nearest first.  The library goes back from the last byte, over three
    bytes at most, to the nearest byte that can begin a rune; when there is
    none it starts one byte further back, or where the string begins. *)
Definition lastRuneStart (before : string) : nat :=
  match before with
  | EmptyString => 1%nat
  | String c1 r2 =>
    if RuneStart (byte c1) then 2%nat
    else
      match r2 with
      | EmptyString => 2%nat
      | String c2 r3 =>
        if RuneStart (byte c2) then 3%nat
        else
          match r3 with
          | EmptyString => 3%nat
          | String c3 r4 =>
            if RuneStart (byte c3) then 4%nat
            else match r4 with
                 | EmptyString => 4%nat
                 | String _ _ => 5%nat
                 end
          end
      end
  end.

(** [utf8.DecodeLastRuneInString], on the string reversed: the last rune
    and its width; the bytes from the start found above must decode to a
    rune that ends where the string ends. *)
Definition decodeLastRev (r : string) : N * nat :=
  match r with
  | EmptyString => (RuneError, 0%nat)
  | String c0 before =>
    if (byte c0 <? RuneSelf) then (byte c0, 1%nat)
    else
      let width := lastRuneStart before in
      let (rn, size) := DecodeRuneInString (rev (take width r)) in
      if (size =? width)%nat then (rn, size) else (RuneError, 1%nat)
  end.

Definition DecodeLastRuneInString (s : string) : N * nat :=
  decodeLastRev (rev s).

End utf8.

Module unicode.

Local Open Scope N_scope.

(** [unicode.IsSpace]: the code points with the White_Space property. *)
Definition IsSpace (r : N) : bool :=
  ((0x09 <=? r) && (r <=? 0x0D)) || (r =? 0x20) || (r =? 0x85) || (r =? 0xA0)
  || (r =? 0x1680) || ((0x2000 <=? r) && (r <=? 0x200A))
  || (r =? 0x2028) || (r =? 0x2029) || (r =? 0x202F) || (r =? 0x205F)
  || (r =? 0x3000).

End unicode.

(** The number of bytes of the white-space rune [s] begins with, [0] when
    [s] is empty or begins with anything else. *)
Definition leadingSpace (s : string) : nat :=
  let (r, n) := utf8.DecodeRuneInString s in
  if unicode.IsSpace r then n else 0%nat.

(** The number of bytes of the white-space rune a string ends with, [0]
    when it ends with anything else; the argument is the string reversed. *)
Definition trailingSpaceRev (r : string) : nat :=
  let (rn, n) := utf8.decodeLastRev r in
  if unicode.IsSpace rn then n else 0%nat.

(** Remove runes from the front for as long as [width] recognises one. *)
Fixpoint stripWhile (width : string -> nat) (fuel : nat) (s : string) : string :=
  match fuel with
  | O => s
  | S fuel' =>
    match width s with
    | O => s
    | S k => stripWhile width fuel' (drop (S k) s)
    end
  end.

Module strings.

(** [strings.HasPrefix(s, prefix)] *)
Definition HasPrefix (s p : string) : bool := String.prefix p s.

(** [strings.HasSuffix(s, suffix)] *)
Fixpoint HasSuffix (s suffix : string) : bool :=
  (s =? suffix)
  || match s with
     | EmptyString => false
     | String _ r => HasSuffix r suffix
     end.

(** [strings.Contains(s, substr)] *)
Fixpoint Contains (s substr : string) : bool :=
  String.prefix substr s
  || match s with
     | EmptyString => false
     | String _ r => Contains r substr
     end.

(** [strings.TrimLeftFunc(s, unicode.IsSpace)]: the runes are decoded
    from the front until one is not white space. *)
Definition TrimLeftSpace (s : string) : string :=
  stripWhile leadingSpace (String.length s) s.

(** [strings.TrimRightFunc(s, unicode.IsSpace)]: the runes are decoded
    from the back until one is not white space. *)
Definition TrimRightSpace (s : string) : string :=
  rev (stripWhile trailingSpaceRev (String.length s) (rev s)).

(** [strings.TrimSpace(s)]: [s] without its leading and trailing white
    space, as defined by Unicode.  The library first skips the ASCII bytes
    at both ends by a table and hands over to the two functions above at the
    first byte that is not ASCII; an ASCII byte is a rune by itself from
    either end, so this is the front trimmed and then the back. *)
Definition TrimSpace (s : string) : string :=
  TrimRightSpace (TrimLeftSpace s).

End strings.

(** ** [bufio.Scanner] with the default split function [bufio.ScanLines] *)
Module bufio.

(** [bufio.MaxScanTokenSize] *)
Definition MaxScanTokenSize : N := (64 * 1024)%N.

(** The text cut at every newline; what follows the last newline is a
    line only when it is not empty. *)
Fixpoint rawLines (s : string) : list string :=
  match s with
  | EmptyString => []
  | String c r =>
    if Ascii.eqb c LF then EmptyString :: rawLines r
    else
      match rawLines r with
      | [] => [String c EmptyString]
      | l :: ls => String c l :: ls
      end
  end.

(** [dropCR]: a line loses one trailing carriage return. *)
Fixpoint dropCR (s : string) : string :=
  match s with
  | EmptyString => EmptyString
  | String c EmptyString => if Ascii.eqb c CR then EmptyString else s
  | String c r => String c (dropCR r)
  end.

(** A line fits the scanner's buffer, which grows to [MaxScanTokenSize]
    bytes: a line of [n] bytes is returned when the buffer holds [n + 1]
    bytes, the line and its newline or, for a last line without newline,
    the line and one free byte, since the end of the input is seen only by
    a read into a buffer that is not full. *)
Definition fits (l : string) : bool :=
  (N.of_nat (String.length l) <? MaxScanTokenSize)%N.

(** The scanner stops, with [ErrTooLong], at the first line that does not
    fit; the program does not look at [scanner.Err()]. *)
Fixpoint takeFitting (ls : list string) : list string :=
  match ls with
  | [] => []
  | l :: r => if fits l then l :: takeFitting r else []
  end.

(** The successive values of [scanner.Text()] while [scanner.Scan()] holds. *)
Definition scanLines (s : string) : list string :=
  map dropCR (takeFitting (rawLines s)).

End bufio.

(** ** [regexp]: the one pattern the program compiles

    [cronRegex] is anchored at both ends of the text and has six groups:
    five fields of one or more [\S], each followed by a separator of one or
    more [\s], and a last group of any number of [.].  Here [\s] is one of
    tab, newline, form feed, carriage return and space, [\S] is any other
    rune and [.] is any rune but newline. *)
Module regexp.

Local Open Scope N_scope.

(** [\s] *)
Definition isSpace (c : ascii) : bool :=
  let b := byte c in
  (b =? 9) || (b =? 10) || (b =? 12) || (b =? 13) || (b =? 32).

(** The longest prefix of [\S] bytes, and the rest. *)
Fixpoint spanNonSpace (s : string) : string * string :=
  match s with
  | EmptyString => (EmptyString, EmptyString)
  | String c r =>
    if isSpace c then (EmptyString, s)
    else let (tok, rest) := spanNonSpace r in (String c tok, rest)
  end.

(** What is left after the longest prefix of [\s] bytes. *)
Fixpoint skipSpace (s : string) : string :=
  match s with
  | EmptyString => EmptyString
  | String c r => if isSpace c then skipSpace r else s
  end.

(** [(\S+)\s+]: a field and what follows its separator. *)
Definition field (s : string) : option (string * string) :=
  let (tok, rest) := spanNonSpace s in
  match tok, rest with
  | EmptyString, _ => None
  | _, EmptyString => None
  | _, String _ _ => Some (tok, skipSpace rest)
  end.

(** [cronRegex.FindStringSubmatch(s)]: [nil] without a match, else the
    whole match followed by the six groups.  The five fields and their
    separators are forced; the last separator is greedy, so the command
    group is what follows it, and must reach the end of the text without
    meeting a newline. *)
Definition FindStringSubmatch (s : string) : list string :=
  match field s with
  | None => []
  | Some (g1, s1) =>
    match field s1 with
    | None => []
    | Some (g2, s2) =>
      match field s2 with
      | None => []
      | Some (g3, s3) =>
        match field s3 with
        | None => []
        | Some (g4, s4) =>
          match field s4 with
          | None => []
          | Some (g5, s5) =>
            if hasByte LF s5 then [] else [s; g1; g2; g3; g4; g5; s5]
          end
        end
      end
    end
  end.

(** [cronRegex.MatchString(s)] *)
Definition MatchString (s : string) : bool :=
  match FindStringSubmatch s with
  | [] => false
  | _ :: _ => true
  end.

End regexp.

Module fmt.

(** [fmt.Sprintf("%s %s %s %s %s %s", a, b, c, d, e, f)] *)
Definition Sprintf6 (a b c d e f : string) : string :=
  a ++ " " ++ b ++ " " ++ c ++ " " ++ d ++ " " ++ e ++ " " ++ f.

End fmt.

(* ================================================================== *)
(** * The data model *)

(** [CrontabEntry] *)
Record CrontabEntry : Type := mkCrontabEntry {
  ID : Z;
  Minute : string;
  Hour : string;
  DayOfMonth : string;
  Month : string;
  DayOfWeek : string;
  Command : string;
  RawLine : string;
  Comment : string;
  Enabled : bool
}.

(** [nextEntryID++] on Go's 64-bit [int]. *)
Definition incrID (n : Z) : Z :=
  (if n + 1 >? 9223372036854775807 then -9223372036854775808 else n + 1)%Z.

(** The canonical line of an entry: its five schedule fields and its
    command joined by single spaces. *)
Definition canonical (entry : CrontabEntry) : string :=
  fmt.Sprintf6 (Minute entry) (Hour entry) (DayOfMonth entry)
               (Month entry) (DayOfWeek entry) (Command entry).

(* ================================================================== *)
(** * [parseCrontabOutput] *)

(** The entry built from the submatches of a task line. *)
Definition entryOfMatches (id : Z) (matches : list string) (line : string)
           (enabled : bool) : CrontabEntry :=
  {| ID := id;
     Minute := nth 1 matches "";
     Hour := nth 2 matches "";
     DayOfMonth := nth 3 matches "";
     Month := nth 4 matches "";
     DayOfWeek := nth 5 matches "";
     Command := strings.TrimSpace (nth 6 matches "");
     RawLine := line;
     Comment := "";
     Enabled := enabled |}.

(** What one line contributes: the entry it is parsed into under the
    identifier [id], or nothing. *)
Definition parseLine (id : Z) (line : string) : option CrontabEntry :=
  if (strings.TrimSpace line =? "") then None
  else if strings.HasPrefix line "#" then
    if strings.HasPrefix line "# " then
      let matches := regexp.FindStringSubmatch (drop 2 line) in
      if (List.length matches =? 7)%nat
      then Some (entryOfMatches id matches line false)
      else None
    else None
  else if strings.Contains line "=" && negb (strings.HasPrefix line "*")
  then None
  else
    let matches := regexp.FindStringSubmatch line in
    if (List.length matches =? 7)%nat
    then Some (entryOfMatches id matches line true)
    else None.

(** One turn of the scanning loop, on the entries collected so far and the
    global counter [nextEntryID]. *)
Definition parseStep (st : list CrontabEntry * Z) (line : string)
  : list CrontabEntry * Z :=
  let (entries, nextEntryID) := st in
  match parseLine nextEntryID line with
  | Some entry => ((entries ++ [entry])%list, incrID nextEntryID)
  | None => (entries, nextEntryID)
  end.

(** [parseCrontabOutput(output)], started with the global [nextEntryID];
    returns the entries and the counter it leaves behind. *)
Definition parseCrontabOutput (nextEntryID : Z) (output : string)
  : list CrontabEntry * Z :=
  fold_left parseStep (bufio.scanLines output) ([], nextEntryID).

(** The parser of the specification: the entries alone. *)
Definition parse (nextEntryID : Z) (output : string) : list CrontabEntry :=
  fst (parseCrontabOutput nextEntryID output).

(* ================================================================== *)
(** * [updateCrontab]: rebuilding the crontab text *)

(** The buffer [newCrontabContent] and the map [existingRawLines], which the
    program fills and never reads. *)
Record MergeState : Type := mkMergeState {
  newCrontabContent : string;
  existingRawLines : string -> bool
}.

Definition markRawLine (m : string -> bool) (k : string) : string -> bool :=
  fun k' => if (k' =? k) then true else m k'.

(** What the first loop writes for one submitted entry. *)
Definition entryText (entry : CrontabEntry) : string :=
  if Enabled entry then canonical entry ++ nl
  else if negb (RawLine entry =? "") && negb (strings.HasPrefix (RawLine entry) "#")
  then "# " ++ RawLine entry ++ nl
  else if negb (RawLine entry =? "") && strings.HasPrefix (RawLine entry) "#"
  then RawLine entry ++ nl
  else "# " ++ canonical entry ++ nl.

(** One turn of the first loop. *)
Definition emitEntry (st : MergeState) (entry : CrontabEntry) : MergeState :=
  {| newCrontabContent := newCrontabContent st ++ entryText entry;
     existingRawLines := markRawLine (existingRawLines st) (RawLine entry) |}.

(** The first loop, over [updatedEntries]. *)
Definition emitEntries (updatedEntries : list CrontabEntry) : MergeState :=
  fold_left emitEntry updatedEntries
            {| newCrontabContent := ""; existingRawLines := fun _ => false |}.

(** The loop that sets [isManagedComment] (and, identically, [found]):
    some submitted entry has [line] as its [RawLine].  The second test of
    that loop, on disabled entries, has an empty body. *)
Definition isManagedComment (updatedEntries : list CrontabEntry)
           (line : string) : bool :=
  existsb (fun entry => RawLine entry =? line) updatedEntries.

(** The loop that sets [foundInUpdated]. *)
Definition foundInUpdated (updatedEntries : list CrontabEntry)
           (line : string) : bool :=
  existsb (fun entry =>
             (RawLine entry =? line)
             || (strings.HasPrefix line "# "
                 && (Enabled entry && (canonical entry =? drop 2 line))))
          updatedEntries.

(** Whether the second loop writes [line] back. *)
Definition keepLine (updatedEntries : list CrontabEntry) (line : string) : bool :=
  let trimmedLine := strings.TrimSpace line in
  if (trimmedLine =? "") || strings.HasPrefix trimmedLine "#" then
    if negb (isManagedComment updatedEntries line)
       && negb (regexp.MatchString line)
       && negb (strings.HasPrefix line "# ")
    then negb (isManagedComment updatedEntries line)
    else false
  else
    negb (regexp.MatchString line) && negb (foundInUpdated updatedEntries line).

(** One turn of the second loop. *)
Definition mergeLine (updatedEntries : list CrontabEntry)
           (content : string) (line : string) : string :=
  if keepLine updatedEntries line then content ++ line ++ nl else content.

(** The content of [newCrontabContent] after both loops, for the submitted
    entries and the output of [crontab -l]. *)
Definition reconcile (updatedEntries : list CrontabEntry) (output : string)
  : string :=
  fold_left (mergeLine updatedEntries) (bufio.scanLines output)
            (newCrontabContent (emitEntries updatedEntries)).

(** The lines of the store the second loop writes back, in the order it
    meets them. *)
Definition preservedLines (updatedEntries : list CrontabEntry)
           (output : string) : list string :=
  filter (keepLine updatedEntries) (bufio.scanLines output).

(** The text of a list of lines, each followed by a newline. *)
Definition unlines (ls : list string) : string :=
  concatAll (map (fun l => l ++ nl) ls).

(* ================================================================== *)
(** * [getCrontab]: the outcome of [crontab -l] *)

(** The error [cmd.Output()] returns: an [*exec.ExitError], with the text
    of its [Error()] (the process state, as in "exit status 1") and the
    standard error it captured, or any other error, with its text. *)
Inductive CmdError : Type :=
| ExitError (processState : string) (Stderr : string)
| OtherError (msg : string).

Definition errorText (err : CmdError) : string :=
  match err with
  | ExitError processState _ => processState
  | OtherError msg => msg
  end.

(** What the handler sends: the encoded entries, or [http.Error] with a
    status code and a message. *)
Inductive Response : Type :=
| Entries (entries : list CrontabEntry)
| HttpError (code : N) (message : string).

(** The process-wide state. *)
Record Globals : Type := mkGlobals {
  currentCrontabEntries : list CrontabEntry;
  nextEntryID : Z
}.

(** [getCrontab], on the result [(output, err)] of [cmd.Output()]. *)
Definition getCrontab (g : Globals) (output : string) (err : option CmdError)
  : Response * Globals :=
  match err with
  | Some e =>
    match e with
    | ExitError _ stderr =>
      if strings.Contains stderr "no crontab for"
      then (Entries [], g)
      else (HttpError 500 ("Failed to list crontab: " ++ errorText e), g)
    | OtherError _ =>
      (HttpError 500 ("Failed to list crontab: " ++ errorText e), g)
    end
  | None =>
    let (entries, next) := parseCrontabOutput (nextEntryID g) output in
    (Entries entries,
     {| currentCrontabEntries := entries; nextEntryID := next |})
  end.

(** The listing [updateCrontab] makes before its second loop: the text to
    merge, or the error response that ends the request. *)
Definition listForMerge (output : string) (err : option CmdError)
  : Response + string :=
  match err with
  | Some e =>
    match e with
    | ExitError _ stderr =>
      if strings.Contains stderr "no crontab for" then inr output
      else inl (HttpError 500 ("Failed to list crontab for merge: " ++ errorText e))
    | OtherError _ =>
      inl (HttpError 500 ("Failed to list crontab for merge: " ++ errorText e))
    end
  | None => inr output
  end.

(** The entries the scanning loop appends for a list of lines. *)
Fixpoint parseLines (id : Z) (ls : list string) : list CrontabEntry :=
  match ls with
  | [] => []
  | l :: r =>
    match parseLine id l with
    | Some entry => entry :: parseLines (incrID id) r
    | None => parseLines id r
    end
  end.

(** The same entry under another identifier. *)
Definition setID (id : Z) (entry : CrontabEntry) : CrontabEntry :=
  {| ID := id; Minute := Minute entry; Hour := Hour entry;
     DayOfMonth := DayOfMonth entry; Month := Month entry;
     DayOfWeek := DayOfWeek entry; Command := Command entry;
     RawLine := RawLine entry; Comment := Comment entry;
     Enabled := Enabled entry |}.

(** The entry a client sends back after switching [Enabled]. *)
Definition setEnabled (b : bool) (entry : CrontabEntry) : CrontabEntry :=
  {| ID := ID entry; Minute := Minute entry; Hour := Hour entry;
     DayOfMonth := DayOfMonth entry; Month := Month entry;
     DayOfWeek := DayOfWeek entry; Command := Command entry;
     RawLine := RawLine entry; Comment := Comment entry; Enabled := b |}.

(** The entry a client sends back after editing the command. *)
Definition setCommand (c : string) (entry : CrontabEntry) : CrontabEntry :=
  {| ID := ID entry; Minute := Minute entry; Hour := Hour entry;
     DayOfMonth := DayOfMonth entry; Month := Month entry;
     DayOfWeek := DayOfWeek entry; Command := c;
     RawLine := RawLine entry; Comment := Comment entry;
     Enabled := Enabled entry |}.

(** The values of an entry the specification compares: everything but the
    identifier, the raw line and the unused comment. *)
Definition fieldsOf (entry : CrontabEntry)
  : string * string * string * string * string * string * bool :=
  (Minute entry, Hour entry, DayOfMonth entry, Month entry, DayOfWeek entry,
   Command entry, Enabled entry).

(** The line the first loop writes for an entry, without its newline. *)
Definition entryLine (entry : CrontabEntry) : string :=
  if Enabled entry then canonical entry
  else if (RawLine entry =? "") then "# " ++ canonical entry
  else if strings.HasPrefix (RawLine entry) "#" then RawLine entry
  else "# " ++ RawLine entry.

(** The lines the first loop writes, in the order of submission. *)
Definition emittedLines (updatedEntries : list CrontabEntry) : list string :=
  map entryLine updatedEntries.

(** A schedule field the task pattern reads back as one field: not empty
    and without a byte the pattern takes for white space (tab, newline,
    form feed, carriage return, space). *)
Fixpoint noSpace (s : string) : bool :=
  match s with
  | EmptyString => true
  | String c r => negb (regexp.isSpace c) && noSpace r
  end.

Definition isField (s : string) : bool := negb (s =? "") && noSpace s.

(** The separator between two fields: one or more [\s]. *)
Fixpoint allSpace (s : string) : bool :=
  match s with
  | EmptyString => true
  | String c r => regexp.isSpace c && allSpace r
  end.

Definition isSeparator (s : string) : bool := negb (s =? "") && allSpace s.

(** The task pattern read as a language: [s] is five fields, each followed
    by a separator, and a last group without newline. *)
Definition taskLine (s g1 g2 g3 g4 g5 g6 : string) : Prop :=
  exists w1 w2 w3 w4 w5,
    s = g1 ++ w1 ++ g2 ++ w2 ++ g3 ++ w3 ++ g4 ++ w4 ++ g5 ++ w5 ++ g6
    /\ isField g1 = true /\ isField g2 = true /\ isField g3 = true
    /\ isField g4 = true /\ isField g5 = true
    /\ isSeparator w1 = true /\ isSeparator w2 = true
    /\ isSeparator w3 = true /\ isSeparator w4 = true
    /\ isSeparator w5 = true
    /\ hasByte LF g6 = false.

(** The condition of the second loop as the specification words it: the
    line is not the raw line of a submitted entry, the task pattern does
    not match it, and it does not begin with "# ". *)
Definition foreignLine (updatedEntries : list CrontabEntry) (line : string)
  : bool :=
  negb (isManagedComment updatedEntries line)
  && negb (regexp.MatchString line)
  && negb (strings.HasPrefix line "# ").

(** The values of the entry a line is parsed into, if it is parsed into
    one. *)
Definition lineFields (line : string)
  : list (string * string * string * string * string * string * bool) :=
  match parseLine 0 line with
  | Some entry => [fieldsOf entry]
  | None => []
  end.

(** A line with nothing but white space. *)
Definition blank (s : string) : Prop := strings.TrimLeftSpace s = "".

(** [joined n k l]: the task pattern reads [n] fields and a command from
    [l], and [k] is these fields and the trimmed command joined by single
    spaces, the way the canonical line is written. *)
Inductive joined : nat -> string -> string -> Prop :=
| joined_command (s : string) : joined 0 (strings.TrimSpace s) s
| joined_field (n : nat) (g k l l' : string) :
    regexp.field l = Some (g, l') ->
    joined n k l' ->
    joined (S n) (g ++ String " " k) l.

(** A submitted entry the reconciler reads back as it wrote it: its line
    has no newline inside and fits the scanner; when it is enabled its five
    schedule fields are fields of the task pattern; when it is disabled its
    raw line does not end with a carriage return. *)
Definition wellFormed (entry : CrontabEntry) : bool :=
  negb (hasByte LF (entryLine entry))
  && bufio.fits (entryLine entry)
  && (if Enabled entry
      then isField (Minute entry) && isField (Hour entry)
           && isField (DayOfMonth entry) && isField (Month entry)
           && isField (DayOfWeek entry)
      else negb (strings.HasSuffix (RawLine entry) CRs)).

(** ** The scenarios of the specification *)

Definition fooLine : string := "*/5 * * * * /usr/bin/foo".

(** The entry fetched from the store text of scenario 1. *)
Definition fooEntry : CrontabEntry :=
  {| ID := 1; Minute := "*/5"; Hour := "*"; DayOfMonth := "*"; Month := "*";
     DayOfWeek := "*"; Command := "/usr/bin/foo"; RawLine := fooLine;
     Comment := ""; Enabled := true |}.

(** The new entry of scenario 3. *)
Definition backupEntry : CrontabEntry :=
  {| ID := 0; Minute := "0"; Hour := "3"; DayOfMonth := "*"; Month := "*";
     DayOfWeek := "*"; Command := "/bin/backup.sh"; RawLine := "";
     Comment := ""; Enabled := true |}.

(** A store with a task, an environment assignment, comments and an
    empty line. *)
Definition sampleStore : string :=
  unlines ["FOO=bar"; "# some note"; "#some note"; ""; fooLine].

(** The entry of scenario 1 after the client edited its command. *)
Definition editedFoo : CrontabEntry := setCommand "/usr/bin/bar" fooEntry.

(** A disabled task whose command sets a variable. *)
Definition envTask : string := "# 0 3 * * * FOO=bar /bin/backup.sh".

(** The new entry of scenario 3 after the client emptied its minute. *)
Definition blankMinute : CrontabEntry :=
  {| ID := 0; Minute := ""; Hour := "3"; DayOfMonth := "*"; Month := "*";
     DayOfWeek := "*"; Command := "/bin/backup.sh"; RawLine := "";
     Comment := ""; Enabled := true |}.

(** A comment of five words in a store whose lines end with two carriage
    returns and a newline. *)
Definition crStore : string := "# m h dom mon dow" ++ CRs ++ CRs ++ nl.

(** A store with a disabled task, an assignment, and a task written with
    tabs and several spaces. *)
Definition spacedStore : string :=
  unlines ["MAILTO=root"; "# 0 3 * * * /bin/backup.sh";
           "*/5  *   * * *" ++ String (ascii_of_N 9) "/usr/bin/foo  --all  "].

(** The state of a process that has just started. *)
Definition initial : Globals :=
  {| currentCrontabEntries := []; nextEntryID := 1 |}.

(** What [crontab -l] prints on standard error when it is refused. *)
Definition deniedStderr : string := "crontab: must be privileged to use -u".

(** ** The statements of the specification that the program does not meet *)


(** Reconciling against one's own output changes nothing. *)
Definition idempotent (updatedEntries : list CrontabEntry) (output : string)
  : Prop :=
  reconcile updatedEntries (reconcile updatedEntries output)
  = reconcile updatedEntries output.

(** Parsing what reconciling the unmodified entries produced gives the
    same values again. *)
Definition round_trip (output : string) : Prop :=
  forall id id' : Z,
    map fieldsOf (parse id' (reconcile (parse id output) output))
    = map fieldsOf (parse id output).

(** A failed listing hands the captured diagnostic to the caller. *)
Definition diagnostic_surfaced (g : Globals) (output processState stderr : string)
  : Prop :=
  strings.Contains stderr "no crontab for" = false ->
  exists code message,
    fst (getCrontab g output (Some (ExitError processState stderr)))
    = HttpError code message
    /\ strings.Contains message stderr = true.

(* ================================================================== *)
(** * The request handlers and what they do to the outside *)

(** What a handler does outside the process, in the order it does it: it
    runs [crontab -l], creates the temporary file, writes a text to it,
    closes it, runs [crontab] on it, removes it.  Writing to the log is
    left out. *)
Inductive Action : Type :=
| RunList
| CreateTemp
| WriteTemp (name content : string)
| CloseTemp (name : string)
| RunInstall (name : string)
| RemoveTemp (name : string).

(** What the outside answers during one request: the result
    [(output, err)] of the listing [getCrontab] makes for a GET, of the
    listing [updateCrontab] makes before its second loop, the name of the
    temporary file or the error of [os.CreateTemp], the error of
    [WriteString] if any, the result of [cmd.CombinedOutput()] for the
    installation, and the result of the listing [getCrontab] makes at the
    end of [updateCrontab]. *)
Record Outside : Type := mkOutside {
  fetchList : string * option CmdError;
  mergeList : string * option CmdError;
  tempFile : string + string;
  tempWrite : option string;
  install : string * option CmdError;
  confirmList : string * option CmdError
}.

(** [updateCrontab], on the result of decoding the request body (the error
    of the decoder, or the entries): the response, the process-wide state
    and the actions.  The removal of the temporary file is deferred, and so
    comes last on every path that created it. *)
Definition updateCrontab (g : Globals) (decoded : string + list CrontabEntry)
           (world : Outside) : Response * Globals * list Action :=
  match decoded with
  | inl err =>
    (HttpError 400 ("Failed to parse request body: " ++ err), g, [])
  | inr updatedEntries =>
    match listForMerge (fst (mergeList world)) (snd (mergeList world)) with
    | inl response => (response, g, [RunList])
    | inr output =>
      let content := reconcile updatedEntries output in
      match tempFile world with
      | inl err =>
        (HttpError 500 ("Failed to create temp file: " ++ err), g,
         [RunList; CreateTemp])
      | inr name =>
        match tempWrite world with
        | Some err =>
          (HttpError 500 ("Failed to write to temp file: " ++ err), g,
           [RunList; CreateTemp; WriteTemp name content; RemoveTemp name])
        | None =>
          match snd (install world) with
          | Some err =>
            (HttpError 500 ("Failed to update crontab: " ++ errorText err
                            ++ ", Output: " ++ fst (install world)), g,
             [RunList; CreateTemp; WriteTemp name content; CloseTemp name;
              RunInstall name; RemoveTemp name])
          | None =>
            let (response, g') :=
                getCrontab g (fst (confirmList world))
                           (snd (confirmList world)) in
            (response, g',
             [RunList; CreateTemp; WriteTemp name content; CloseTemp name;
              RunInstall name; RunList; RemoveTemp name])
          end
        end
      end
    end
  end.

(** [handleCrontabAPI], on the method of the request. *)
Definition handleCrontabAPI (g : Globals) (method : string)
           (decoded : string + list CrontabEntry) (world : Outside)
  : Response * Globals * list Action :=
  if (method =? "GET") then
    let (response, g') :=
        getCrontab g (fst (fetchList world)) (snd (fetchList world)) in
    (response, g', [RunList])
  else if (method =? "POST") then updateCrontab g decoded world
  else (HttpError 405 "Method not allowed", g, []).

(** The actions that change something outside the process. *)
Definition changesOutside (a : Action) : bool :=
  match a with
  | RunList => false
  | _ => true
  end.

(** The lines [updateCrontab] writes for the submitted entries and the
    store: those of the first loop, then those of the second. *)
Definition writtenLines (updatedEntries : list CrontabEntry)
           (output : string) : list string :=
  (emittedLines updatedEntries ++ preservedLines updatedEntries output)%list.

(** The line is one the parser turns into an entry. *)
Definition isTask (line : string) : bool :=
  match parseLine 0 line with
  | Some _ => true
  | None => false
  end.

(** The identifiers the parser gives to [n] entries in a row. *)
Fixpoint idsFrom (id : Z) (n : nat) : list Z :=
  match n with
  | O => []
  | S n' => id :: idsFrom (incrID id) n'
  end.

(** The counter after [n] increments. *)
Fixpoint incrIDs (id : Z) (n : nat) : Z :=
  match n with
  | O => id
  | S n' => incrIDs (incrID id) n'
  end.

(** The largest value of Go's 64-bit [int]. *)
Definition maxInt : Z := 9223372036854775807.

(** A text of [n] bytes [c]. *)
Fixpoint replicate (n : nat) (c : ascii) : string :=
  match n with
  | O => EmptyString
  | S n' => String c (replicate n' c)
  end.

(** The same entry with another comment. *)
Definition setComment (c : string) (entry : CrontabEntry) : CrontabEntry :=
  {| ID := ID entry; Minute := Minute entry; Hour := Hour entry;
     DayOfMonth := DayOfMonth entry; Month := Month entry;
     DayOfWeek := DayOfWeek entry; Command := Command entry;
     RawLine := RawLine entry; Comment := c; Enabled := Enabled entry |}.

(** The text of a list of lines, each followed by a carriage return and a
    newline. *)
Definition unlinesCRLF (ls : list string) : string :=
  concatAll (map (fun l => l ++ CRs ++ nl) ls).

(** ** Further scenarios *)

(** An assignment whose value is six words. *)
Definition pathLine : string := "PATH=/a /b /c /d /e /f".

(** A task whose command holds "=". *)
Definition curlLine : string := "0 3 * * * curl http://example.org/?a=b".

(** A store with that task, a comment and two other tasks, one disabled. *)
Definition curlStore : string :=
  unlines [curlLine; "# nightly jobs"; fooLine; "# 0 4 * * * /bin/rotate"].

(** An outside where everything succeeds and the store is [sampleStore]. *)
Definition calmOutside : Outside :=
  {| fetchList := (sampleStore, None);
     mergeList := (sampleStore, None);
     tempFile := inr "/tmp/crontab-editor-1";
     tempWrite := None;
     install := ("", None);
     confirmList := (reconcile [editedFoo] sampleStore, None) |}.

(** An outside where there is no crontab yet. *)
Definition bareOutside : Outside :=
  {| fetchList := ("", Some (ExitError "exit status 1" "no crontab for root"));
     mergeList := ("", Some (ExitError "exit status 1" "no crontab for root"));
     tempFile := inr "/tmp/crontab-editor-4";
     tempWrite := None;
     install := ("", None);
     confirmList := (unlines ["0 3 * * * /bin/backup.sh"], None) |}.

(** An outside where the installation is refused. *)
Definition refusingOutside : Outside :=
  {| fetchList := (sampleStore, None);
     mergeList := (sampleStore, None);
     tempFile := inr "/tmp/crontab-editor-2";
     tempWrite := None;
     install := ("errors in crontab file, can't install.",
                 Some (ExitError "exit status 1" ""));
     confirmList := (sampleStore, None) |}.

(* ================================================================== *)
(** * Elementary facts on strings *)

Section StringFacts.

Lemma app_nil_r (s : string) : s ++ "" = s.
Proof. induction s as [|c s IH]; simpl; [reflexivity | now rewrite IH]. Qed.

Lemma app_assoc (a b c : string) : a ++ b ++ c = (a ++ b) ++ c.
Proof. induction a as [|x a IH]; simpl; [reflexivity | now rewrite IH]. Qed.

Lemma length_app (a b : string) :
  String.length (a ++ b) = (String.length a + String.length b)%nat.
Proof. induction a as [|x a IH]; simpl; [reflexivity | now rewrite IH]. Qed.

Lemma concatAll_app (l1 l2 : list string) :
  concatAll (l1 ++ l2)%list = concatAll l1 ++ concatAll l2.
Proof.
  induction l1 as [|x l1 IH]; simpl; [reflexivity|].
  now rewrite IH, app_assoc.
Qed.

Lemma unlines_app (l1 l2 : list string) :
  unlines (l1 ++ l2)%list = unlines l1 ++ unlines l2.
Proof. unfold unlines. now rewrite map_app, concatAll_app. Qed.

Lemma prefix_app (p s : string) : String.prefix p (p ++ s) = true.
Proof.
  induction p as [|c p IH]; simpl; [now destruct s|].
  destruct (ascii_dec c c) as [_|N]; [exact IH | now elim N].
Qed.

Lemma prefix_cons (c d : ascii) (p s : string) :
  String.prefix (String c p) (String d s) = Ascii.eqb c d && String.prefix p s.
Proof.
  simpl. destruct (ascii_dec c d) as [E|N].
  - subst. now rewrite Ascii.eqb_refl.
  - apply Ascii.eqb_neq in N. now rewrite N.
Qed.

Lemma prefix_nil (s : string) : String.prefix "" s = true.
Proof. now destruct s. Qed.

(** A prefix test succeeds exactly on the strings that extend the prefix. *)
Lemma prefix_true (p s : string) :
  String.prefix p s = true -> exists r, s = p ++ r.
Proof.
  revert s; induction p as [|c p IH]; intros s H.
  - now exists s.
  - destruct s as [|d s]; [discriminate|].
    rewrite prefix_cons in H. apply andb_true_iff in H as [E H].
    apply Ascii.eqb_eq in E; subst d.
    destruct (IH _ H) as [r ->]. now exists r.
Qed.

Lemma take_drop (n : nat) (s : string) : take n s ++ drop n s = s.
Proof.
  revert s; induction n as [|n IH]; intros [|c s]; simpl; trivial.
  now rewrite IH.
Qed.

Lemma drop_nil (n : nat) : drop n "" = "".
Proof. now destruct n. Qed.

Lemma drop_app_le (n : nat) (a b : string) :
  (n <= String.length a)%nat -> drop n (a ++ b) = drop n a ++ b.
Proof.
  revert a; induction n as [|n IH]; intros [|c a] H; simpl in *; trivial.
  - lia.
  - apply IH. lia.
Qed.

Lemma drop_drop (n m : nat) (s : string) :
  drop n (drop m s) = drop (n + m) s.
Proof.
  revert s; induction m as [|m IH]; intros s.
  - now rewrite Nat.add_0_r.
  - rewrite Nat.add_succ_r. destruct s as [|c s]; simpl.
    + now rewrite drop_nil.
    + apply IH.
Qed.

Lemma length_drop (n : nat) (s : string) :
  String.length (drop n s) = (String.length s - n)%nat.
Proof.
  revert s; induction n as [|n IH]; intros [|c s]; simpl; trivial; lia.
Qed.

Lemma rev_app (a b : string) : rev (a ++ b) = rev b ++ rev a.
Proof.
  induction a as [|c a IH]; simpl.
  - now rewrite app_nil_r.
  - now rewrite IH, app_assoc.
Qed.

Lemma rev_involutive (s : string) : rev (rev s) = s.
Proof.
  induction s as [|c s IH]; simpl; trivial.
  now rewrite rev_app, IH.
Qed.

Lemma length_rev (s : string) : String.length (rev s) = String.length s.
Proof.
  induction s as [|c s IH]; simpl; trivial.
  rewrite length_app, IH. simpl. lia.
Qed.

Lemma app_eq_nil (a b : string) : a ++ b = "" -> a = "" /\ b = "".
Proof. destruct a; simpl; [tauto | discriminate]. Qed.

Lemma hasByte_app (c : ascii) (a b : string) :
  hasByte c (a ++ b) = hasByte c a || hasByte c b.
Proof.
  induction a as [|d a IH]; simpl; trivial.
  now rewrite IH, orb_assoc.
Qed.

End StringFacts.

(* ================================================================== *)
(** * The shape of the reconciled text *)

Section ReconcileShape.

Variable updatedEntries : list CrontabEntry.

Lemma emitEntries_from (l : list CrontabEntry) (st : MergeState) :
  newCrontabContent (fold_left emitEntry l st)
  = newCrontabContent st ++ concatAll (map entryText l).
Proof.
  revert st; induction l as [|e l IH]; intros st; simpl.
  - now rewrite app_nil_r.
  - rewrite IH. simpl. now rewrite app_assoc.
Qed.

Lemma emitEntries_text :
  newCrontabContent (emitEntries updatedEntries)
  = concatAll (map entryText updatedEntries).
Proof. unfold emitEntries. now rewrite emitEntries_from. Qed.

Lemma mergeLines_from (ls : list string) (content : string) :
  fold_left (mergeLine updatedEntries) ls content
  = content ++ unlines (filter (keepLine updatedEntries) ls).
Proof.
  revert content; induction ls as [|l ls IH]; intros content; simpl.
  - unfold unlines; simpl. now rewrite app_nil_r.
  - rewrite IH. unfold mergeLine.
    destruct (keepLine updatedEntries l); [|reflexivity].
    unfold unlines; simpl. now rewrite !app_assoc.
Qed.

(** The map the first loop fills holds the raw lines of the submitted
    entries, the ones the second loop looks for entry by entry. *)
Lemma existingRawLines_from (l : list CrontabEntry) (st : MergeState)
      (k : string) :
  existingRawLines (fold_left emitEntry l st) k
  = existsb (fun entry => RawLine entry =? k) l || existingRawLines st k.
Proof.
  revert st; induction l as [|e l IH]; intros st; [reflexivity|].
  cbn [fold_left existsb]. rewrite IH. cbn [emitEntry existingRawLines].
  unfold markRawLine. rewrite (String.eqb_sym k).
  destruct (RawLine e =? k); cbn [orb]; [apply orb_true_r | reflexivity].
Qed.

Lemma existingRawLines_spec (k : string) :
  existingRawLines (emitEntries updatedEntries) k
  = isManagedComment updatedEntries k.
Proof.
  unfold emitEntries, isManagedComment.
  rewrite existingRawLines_from. apply orb_false_r.
Qed.

(** The reconciled text is what the first loop wrote followed by what the
    second loop kept. *)
Lemma reconcile_shape (output : string) :
  reconcile updatedEntries output
  = concatAll (map entryText updatedEntries)
    ++ unlines (preservedLines updatedEntries output).
Proof.
  unfold reconcile, preservedLines.
  now rewrite mergeLines_from, emitEntries_text.
Qed.

(** A line some submitted entry has as its raw line is never kept. *)
Lemma keepLine_claimed (line : string) :
  isManagedComment updatedEntries line = true ->
  keepLine updatedEntries line = false.
Proof.
  intros H. unfold keepLine. rewrite H. simpl.
  destruct (_ || _); [reflexivity|].
  assert (F : foundInUpdated updatedEntries line = true).
  { unfold isManagedComment in H. unfold foundInUpdated.
    apply existsb_exists in H as [e [He Hr]].
    apply existsb_exists. exists e. split; [exact He|].
    now rewrite Hr. }
  rewrite F. now rewrite andb_false_r.
Qed.

(** A line the task pattern matches is never kept. *)
Lemma keepLine_task (line : string) :
  regexp.MatchString line = true ->
  keepLine updatedEntries line = false.
Proof.
  intros H. unfold keepLine. rewrite H. simpl.
  rewrite andb_false_r. simpl. now destruct (_ || _).
Qed.

Lemma isManagedComment_true (line : string) :
  isManagedComment updatedEntries line = true
  <-> exists e, In e updatedEntries /\ RawLine e = line.
Proof.
  unfold isManagedComment. rewrite existsb_exists.
  split; intros [e [He Hr]]; exists e; split; trivial;
    now apply String.eqb_eq.
Qed.

Lemma isManagedComment_false (line : string) :
  isManagedComment updatedEntries line = false
  <-> forall e, In e updatedEntries -> RawLine e <> line.
Proof.
  split.
  - intros H e He Hr.
    assert (T : isManagedComment updatedEntries line = true)
      by (apply isManagedComment_true; now exists e).
    congruence.
  - intros H. destruct (isManagedComment updatedEntries line) eqn:E; [|reflexivity].
    apply isManagedComment_true in E as [e [He Hr]]. now elim (H e He).
Qed.

(** Without the prefix "# " the second search finds what the first finds. *)
Lemma foundInUpdated_plain (line : string) :
  strings.HasPrefix line "# " = false ->
  foundInUpdated updatedEntries line = isManagedComment updatedEntries line.
Proof.
  intros H. unfold foundInUpdated, isManagedComment.
  generalize updatedEntries as l.
  induction l as [|e l IH]; cbn [existsb]; [reflexivity|].
  rewrite IH, H. cbn [andb]. now rewrite orb_false_r.
Qed.

(** A line that is neither claimed, nor a task line, nor prefixed by
    "# " is kept. *)
Lemma keepLine_foreign (line : string) :
  isManagedComment updatedEntries line = false ->
  regexp.MatchString line = false ->
  strings.HasPrefix line "# " = false ->
  keepLine updatedEntries line = true.
Proof.
  intros Hc Hm Hp. unfold keepLine.
  rewrite (foundInUpdated_plain _ Hp), Hc, Hm, Hp. simpl.
  now destruct (_ || _).
Qed.

End ReconcileShape.

(* ================================================================== *)
(** * White space: runes at the front of a string *)

Section LeadingSpace.

Lemma IsSpace_RuneError : unicode.IsSpace utf8.RuneError = false.
Proof. reflexivity. Qed.

Lemma first_lo (s0 : N) (sz : nat) (lo hi : N) :
  utf8.first s0 = Some (sz, lo, hi) -> (0x80 <= lo)%N.
Proof.
  unfold utf8.first.
  repeat match goal with
         | |- context [if ?b then _ else _] => destruct b
         end; intros H; inversion H; subst; lia.
Qed.

Ltac split_ifs :=
  repeat first
         [ progress cbv beta iota
         | rewrite IsSpace_RuneError
         | match goal with
           | |- context [if ?b then _ else _] => destruct b eqn:?
           | |- context [match utf8.first ?x with _ => _ end] =>
             destruct (utf8.first x) as [[[? ?] ?]|] eqn:?
           end ].

(** A byte below [RuneSelf] is neither a second byte in range nor a
    continuation byte. *)
Ltac ascii_absurd :=
  match goal with
  | F : utf8.first _ = Some (_, ?lo, _),
    B : ((byte ?a <? ?lo)%N || _) = false,
    A : (byte ?a < 128)%N |- _ =>
    apply first_lo in F; apply orb_false_iff in B as [B _];
    apply N.ltb_ge in B; lia
  | B : negb (utf8.cont (byte ?a)) = false, A : (byte ?a < 128)%N |- _ =>
    apply negb_false_iff in B; unfold utf8.cont in B;
    apply andb_true_iff in B as [B _]; apply N.leb_le in B; lia
  end.

(** The rune counted by [leadingSpace] lies within the string. *)
Lemma leadingSpace_le (s : string) :
  (leadingSpace s <= String.length s)%nat.
Proof.
  unfold leadingSpace, utf8.DecodeRuneInString.
  destruct s as [|c0 [|c1 [|c2 [|c3 t]]]]; cbn [String.length];
    split_ifs; lia.
Qed.

Lemma leadingSpace_nil : leadingSpace "" = 0%nat.
Proof. reflexivity. Qed.

(** What follows a white-space rune does not change it. *)
Lemma leadingSpace_app (s t : string) (k : nat) :
  leadingSpace s = S k -> leadingSpace (s ++ t) = S k.
Proof.
  unfold leadingSpace, utf8.DecodeRuneInString.
  destruct s as [|c0 [|c1 [|c2 [|c3 s]]]]; cbn [append];
    split_ifs; intros H; try discriminate H; try exact H.
Qed.

(** On a byte below [RuneSelf] the rune is the byte. *)
Lemma leadingSpace_ascii (c : ascii) (r : string) :
  (byte c < 128)%N ->
  leadingSpace (String c r) = if unicode.IsSpace (byte c) then 1%nat else 0%nat.
Proof.
  intros H. unfold leadingSpace, utf8.DecodeRuneInString, utf8.RuneSelf.
  apply N.ltb_lt in H. now rewrite H.
Qed.

(** A string that does not begin with white space still does not when an
    ASCII byte and more are appended to it. *)
Lemma leadingSpace_stop (x y : string) (a : ascii) :
  x <> "" -> (byte a < 128)%N -> leadingSpace x = 0%nat ->
  leadingSpace (x ++ String a y) = 0%nat.
Proof.
  intros Hx Ha. unfold leadingSpace, utf8.DecodeRuneInString.
  destruct x as [|c0 [|c1 [|c2 [|c3 x]]]]; [now elim Hx| | | |]; cbn [append];
    split_ifs; intros H; try discriminate H; try reflexivity;
    try ascii_absurd.
Qed.

Lemma regexp_isSpace_byte (c : ascii) :
  regexp.isSpace c = true ->
  (byte c < 128)%N /\ unicode.IsSpace (byte c) = true.
Proof.
  unfold regexp.isSpace. intros H.
  repeat (apply orb_true_iff in H as [H|H]);
    apply N.eqb_eq in H; rewrite H; split; (lia || reflexivity).
Qed.

Lemma leadingSpace_regexp_space (c : ascii) (r : string) :
  regexp.isSpace c = true -> leadingSpace (String c r) = 1%nat.
Proof.
  intros H. apply regexp_isSpace_byte in H as [H1 H2].
  now rewrite leadingSpace_ascii, H2.
Qed.

End LeadingSpace.

(* ================================================================== *)
(** * Stripping runes *)

Section StripWhile.

Variable width : string -> nat.
Hypothesis width_le : forall s, (width s <= String.length s)%nat.

Lemma stripWhile_stable (fuel : nat) (s : string) :
  width s = 0%nat -> stripWhile width fuel s = s.
Proof. intros H. destruct fuel; simpl; [reflexivity | now rewrite H]. Qed.

Lemma stripWhile_drop (fuel : nat) (s : string) :
  exists n, stripWhile width fuel s = drop n s.
Proof.
  revert s; induction fuel as [|fuel IH]; intros s; cbn [stripWhile].
  - now exists 0%nat.
  - destruct (width s) as [|k]; [now exists 0%nat|].
    destruct (IH (drop (S k) s)) as [n Hn]. exists (n + S k)%nat.
    now rewrite Hn, drop_drop.
Qed.

Lemma stripWhile_done (fuel : nat) (s : string) :
  (String.length s <= fuel)%nat -> width (stripWhile width fuel s) = 0%nat.
Proof.
  revert s; induction fuel as [|fuel IH]; intros s H; cbn [stripWhile].
  - specialize (width_le s). lia.
  - destruct (width s) as [|k] eqn:E; [exact E|].
    apply IH. rewrite length_drop. lia.
Qed.

Lemma stripWhile_fuel (f1 f2 : nat) (s : string) :
  (String.length s <= f1)%nat -> (String.length s <= f2)%nat ->
  stripWhile width f1 s = stripWhile width f2 s.
Proof.
  revert f2 s; induction f1 as [|f1 IH]; intros f2 s H1 H2.
  - rewrite !stripWhile_stable; trivial; specialize (width_le s); lia.
  - destruct f2 as [|f2].
    + rewrite !stripWhile_stable; trivial; specialize (width_le s); lia.
    + cbn [stripWhile]. destruct (width s) as [|k]; [reflexivity|].
      apply IH; rewrite length_drop; lia.
Qed.

Lemma stripWhile_step (s : string) (k : nat) :
  width s = S k ->
  stripWhile width (String.length s) s
  = stripWhile width (String.length (drop (S k) s)) (drop (S k) s).
Proof.
  intros E. destruct s as [|c s].
  - specialize (width_le ""). simpl in width_le. lia.
  - cbn [String.length stripWhile]. rewrite E.
    apply stripWhile_fuel; rewrite ?length_drop; simpl; lia.
Qed.

End StripWhile.

(* ================================================================== *)
(** * [strings.TrimSpace] *)

Section TrimSpace.

(** ** The front *)

Lemma TrimLeftSpace_done (s : string) :
  leadingSpace (strings.TrimLeftSpace s) = 0%nat.
Proof. apply stripWhile_done; [apply leadingSpace_le | lia]. Qed.

Lemma TrimLeftSpace_stable (s : string) :
  leadingSpace s = 0%nat -> strings.TrimLeftSpace s = s.
Proof. apply stripWhile_stable. Qed.

Lemma TrimLeftSpace_step (s : string) (k : nat) :
  leadingSpace s = S k ->
  strings.TrimLeftSpace s = strings.TrimLeftSpace (drop (S k) s).
Proof. apply stripWhile_step, leadingSpace_le. Qed.

Lemma TrimLeftSpace_drop (s : string) :
  exists n, strings.TrimLeftSpace s = drop n s.
Proof. apply stripWhile_drop. Qed.

(** ** The back *)

Lemma length_take_le (n : nat) (s : string) :
  (String.length (take n s) <= String.length s)%nat.
Proof.
  revert s; induction n as [|n IH]; intros [|c s]; simpl; try lia.
  specialize (IH s). lia.
Qed.

Lemma trailingSpaceRev_spec (r : string) (k : nat) :
  trailingSpaceRev r = S k -> leadingSpace (rev (take (S k) r)) = S k.
Proof.
  unfold trailingSpaceRev, utf8.decodeLastRev.
  destruct r as [|c0 before]; [discriminate|].
  destruct (byte c0 <? utf8.RuneSelf)%N eqn:A.
  - destruct (unicode.IsSpace (byte c0)) eqn:I; [|discriminate].
    intros H. injection H as <-. cbn [take rev append].
    apply N.ltb_lt in A. now rewrite leadingSpace_ascii, I.
  - set (width := utf8.lastRuneStart before).
    destruct (utf8.DecodeRuneInString (rev (take width (String c0 before))))
      as [rn size] eqn:D.
    destruct (Nat.eqb_spec size width) as [E|E];
      [|rewrite IsSpace_RuneError; discriminate].
    destruct (unicode.IsSpace rn) eqn:I; [|discriminate].
    intros H. unfold leadingSpace.
    replace (S k) with width by congruence. now rewrite D, I.
Qed.

Lemma trailingSpaceRev_le (r : string) :
  (trailingSpaceRev r <= String.length r)%nat.
Proof.
  destruct (trailingSpaceRev r) as [|k] eqn:E; [lia|].
  apply trailingSpaceRev_spec in E.
  pose proof (leadingSpace_le (rev (take (S k) r))) as H.
  rewrite E, length_rev in H.
  pose proof (length_take_le (S k) r). lia.
Qed.

(** When the stripping stops, the last byte is not an ASCII space. *)
Lemma trailingSpaceRev_ascii (c : ascii) (r : string) :
  trailingSpaceRev (String c r) = 0%nat ->
  (byte c < 128)%N -> unicode.IsSpace (byte c) = false.
Proof.
  unfold trailingSpaceRev, utf8.decodeLastRev, utf8.RuneSelf. intros H A.
  apply N.ltb_lt in A. rewrite A in H.
  destruct (unicode.IsSpace (byte c)); [discriminate H | reflexivity].
Qed.

Lemma TrimRightSpace_prefix (y : string) :
  exists t, y = strings.TrimRightSpace y ++ t.
Proof.
  unfold strings.TrimRightSpace.
  destruct (stripWhile_drop trailingSpaceRev (String.length y) (rev y))
    as [n ->].
  exists (rev (take n (rev y))).
  now rewrite <- rev_app, take_drop, rev_involutive.
Qed.

Lemma TrimRightSpace_done (y : string) :
  trailingSpaceRev (rev (strings.TrimRightSpace y)) = 0%nat.
Proof.
  unfold strings.TrimRightSpace. rewrite rev_involutive.
  apply stripWhile_done; [apply trailingSpaceRev_le|].
  rewrite length_rev. lia.
Qed.

Lemma TrimRightSpace_stable (y : string) :
  trailingSpaceRev (rev y) = 0%nat -> strings.TrimRightSpace y = y.
Proof.
  intros H. unfold strings.TrimRightSpace.
  now rewrite stripWhile_stable, rev_involutive.
Qed.

Lemma rev_eq_nil (s : string) : rev s = "" -> s = "".
Proof.
  intros H. apply (f_equal String.length) in H.
  rewrite length_rev in H. now destruct s.
Qed.

(** A string stripped to nothing from the back begins with white space. *)
Lemma stripWhile_trailing_nil (fuel : nat) (r : string) :
  stripWhile trailingSpaceRev fuel r = "" ->
  r = "" \/ leadingSpace (rev r) <> 0%nat.
Proof.
  revert r; induction fuel as [|fuel IH]; intros r; cbn [stripWhile].
  - now left.
  - destruct (trailingSpaceRev r) as [|k] eqn:E; [now left|].
    intros H. right. apply trailingSpaceRev_spec in E.
    rewrite <- (take_drop (S k) r) at 1. rewrite rev_app.
    destruct (IH _ H) as [D|D].
    + rewrite D. cbn [rev append]. rewrite E. discriminate.
    + destruct (leadingSpace (rev (drop (S k) r))) as [|j] eqn:L;
        [now elim D|].
      rewrite (leadingSpace_app _ _ _ L). discriminate.
Qed.

Lemma TrimRightSpace_nil (y : string) :
  strings.TrimRightSpace y = "" -> y = "" \/ leadingSpace y <> 0%nat.
Proof.
  unfold strings.TrimRightSpace. intros H. apply rev_eq_nil in H.
  apply stripWhile_trailing_nil in H as [H|H].
  - left. now apply rev_eq_nil.
  - right. now rewrite rev_involutive in H.
Qed.

(** ** Both ends *)

Lemma TrimSpace_lead (s : string) : leadingSpace (strings.TrimSpace s) = 0%nat.
Proof.
  unfold strings.TrimSpace.
  pose proof (TrimLeftSpace_done s) as D.
  destruct (TrimRightSpace_prefix (strings.TrimLeftSpace s)) as [t Ht].
  destruct (leadingSpace (strings.TrimRightSpace (strings.TrimLeftSpace s)))
    as [|k] eqn:E; [reflexivity|].
  rewrite Ht in D. now rewrite (leadingSpace_app _ t _ E) in D.
Qed.

Lemma TrimSpace_idem (s : string) :
  strings.TrimSpace (strings.TrimSpace s) = strings.TrimSpace s.
Proof.
  unfold strings.TrimSpace at 1.
  rewrite (TrimLeftSpace_stable _ (TrimSpace_lead s)).
  apply TrimRightSpace_stable. unfold strings.TrimSpace.
  apply TrimRightSpace_done.
Qed.

Lemma TrimSpace_sub (s : string) :
  exists a b, s = a ++ strings.TrimSpace s ++ b.
Proof.
  unfold strings.TrimSpace.
  destruct (TrimLeftSpace_drop s) as [n Hn].
  destruct (TrimRightSpace_prefix (strings.TrimLeftSpace s)) as [t Ht].
  exists (take n s), t. rewrite <- Ht, Hn. now rewrite take_drop.
Qed.

(** The trimmed string is empty exactly when white space is all there is. *)
Lemma TrimSpace_nil (s : string) :
  strings.TrimSpace s = "" <-> strings.TrimLeftSpace s = "".
Proof.
  unfold strings.TrimSpace. split; intros H.
  - apply TrimRightSpace_nil in H as [H|H]; [exact H|].
    now rewrite TrimLeftSpace_done in H.
  - now rewrite H.
Qed.

(** A string that begins with something else than white space keeps its
    first byte. *)
Lemma TrimSpace_first (c : ascii) (r : string) :
  leadingSpace (String c r) = 0%nat ->
  exists r', strings.TrimSpace (String c r) = String c r'.
Proof.
  intros H. unfold strings.TrimSpace.
  rewrite (TrimLeftSpace_stable _ H).
  destruct (TrimRightSpace_prefix (String c r)) as [t Ht].
  destruct (strings.TrimRightSpace (String c r)) as [|d p] eqn:E.
  - apply TrimRightSpace_nil in E as [E|E]; [discriminate E | now elim E].
  - simpl in Ht. injection Ht as -> _. now exists p.
Qed.

(** The trimmed string does not end with an ASCII space. *)
Lemma TrimSpace_last (s x : string) (c : ascii) :
  strings.TrimSpace s = x ++ String c "" ->
  (byte c < 128)%N -> unicode.IsSpace (byte c) = false.
Proof.
  intros H. unfold strings.TrimSpace in H.
  pose proof (TrimRightSpace_done (strings.TrimLeftSpace s)) as D.
  rewrite H, rev_app in D. cbn [rev append] in D.
  exact (trailingSpaceRev_ascii _ _ D).
Qed.

End TrimSpace.

(* ================================================================== *)
(** * The second loop keeps the foreign lines *)

Section KeepLine.

Lemma HasPrefix_hash (line : string) :
  strings.HasPrefix line "#" = true -> exists r, line = String "#" r.
Proof. intros H. apply prefix_true in H as [r ->]. now exists r. Qed.

(** Trimming keeps the "#" a line begins with. *)
Lemma TrimSpace_hash (line : string) :
  strings.HasPrefix line "#" = true ->
  strings.HasPrefix (strings.TrimSpace line) "#" = true.
Proof.
  intros H. apply HasPrefix_hash in H as [r ->].
  destruct (TrimSpace_first "#" r) as [r' ->].
  - now rewrite leadingSpace_ascii.
  - unfold strings.HasPrefix. rewrite prefix_cons. now rewrite prefix_nil.
Qed.

Lemma HasPrefix_hash_space (line : string) :
  strings.HasPrefix line "# " = true -> strings.HasPrefix line "#" = true.
Proof.
  intros H. apply prefix_true in H as [r ->].
  unfold strings.HasPrefix. simpl. now destruct (ascii_dec "#" "#").
Qed.

(** Both branches of the second loop come to the same test. *)
Lemma keepLine_spec (updatedEntries : list CrontabEntry) (line : string) :
  keepLine updatedEntries line = foreignLine updatedEntries line.
Proof.
  unfold keepLine, foreignLine.
  destruct (strings.HasPrefix line "# ") eqn:P.
  - rewrite (TrimSpace_hash _ (HasPrefix_hash_space _ P)).
    rewrite orb_true_r, !andb_false_r. reflexivity.
  - rewrite (foundInUpdated_plain _ _ P).
    destruct (_ || _);
      destruct (isManagedComment updatedEntries line);
      destruct (regexp.MatchString line); reflexivity.
Qed.

Lemma preservedLines_spec (updatedEntries : list CrontabEntry)
      (output : string) :
  preservedLines updatedEntries output
  = filter (foreignLine updatedEntries) (bufio.scanLines output).
Proof.
  unfold preservedLines. apply filter_ext. intros l. apply keepLine_spec.
Qed.

Lemma entryText_line (entry : CrontabEntry) :
  entryText entry = entryLine entry ++ nl.
Proof.
  unfold entryText, entryLine.
  destruct (Enabled entry); [reflexivity|].
  destruct (RawLine entry =? ""); simpl; [reflexivity|].
  destruct (strings.HasPrefix (RawLine entry) "#"); reflexivity.
Qed.

Lemma emitted_text (updatedEntries : list CrontabEntry) :
  concatAll (map entryText updatedEntries)
  = unlines (emittedLines updatedEntries).
Proof.
  unfold unlines, emittedLines. rewrite map_map. f_equal.
  apply map_ext. intros e. apply entryText_line.
Qed.

(** The reconciled text, line by line. *)
Lemma reconcile_lines (updatedEntries : list CrontabEntry) (output : string) :
  reconcile updatedEntries output
  = unlines (emittedLines updatedEntries
             ++ preservedLines updatedEntries output)%list.
Proof. now rewrite reconcile_shape, emitted_text, unlines_app. Qed.

End KeepLine.

(* ================================================================== *)
(** * The claims on the reconciler *)

(** C4.  In the reconciled text everything the first loop wrote for the
    submitted entries, entry after entry in the order of submission, comes
    before everything the second loop kept of the store, and the kept lines
    are the lines of the store that pass the test of the second loop, in the
    order of the store. *)
Theorem C4_submitted_before_preserved :
  forall (updatedEntries : list CrontabEntry) (output : string),
    reconcile updatedEntries output
    = concatAll (map entryText updatedEntries)
      ++ unlines (filter (keepLine updatedEntries) (bufio.scanLines output)).
Proof. intros. apply reconcile_shape. Qed.

(** C3.  A submitted entry that is disabled and whose raw line is neither
    empty nor comment-prefixed is written as "# " followed by the raw line
    itself, whatever its fields are; disabling the entry fetched from the
    store text of scenario 1 gives the text "# */5 * * * * /usr/bin/foo"
    and a newline. *)
Theorem C3_toggle_fidelity :
  forall (before after : list CrontabEntry) (entry : CrontabEntry)
         (output : string),
    Enabled entry = false ->
    RawLine entry <> "" ->
    strings.HasPrefix (RawLine entry) "#" = false ->
    entryText entry = "# " ++ RawLine entry ++ nl
    /\ reconcile (before ++ entry :: after) output
       = concatAll (map entryText before)
         ++ ("# " ++ RawLine entry ++ nl)
         ++ concatAll (map entryText after)
         ++ unlines (preservedLines (before ++ entry :: after) output)
    /\ (forall id,
           reconcile (map (setEnabled false) (parse id (fooLine ++ nl)))
                     (fooLine ++ nl)
           = "# */5 * * * * /usr/bin/foo" ++ nl).
Proof.
  intros before after entry output He Hr Hp.
  assert (T : entryText entry = "# " ++ RawLine entry ++ nl).
  { unfold entryText. rewrite He, Hp.
    apply String.eqb_neq in Hr. now rewrite Hr. }
  split; [exact T|]. split.
  - rewrite reconcile_shape, map_app, concatAll_app. cbn [map concatAll].
    rewrite T. now rewrite !app_assoc.
  - intros id. vm_compute. reflexivity.
Qed.

Lemma C3_toggle_fidelity_witness :
  Enabled (setEnabled false fooEntry) = false
  /\ reconcile ([] ++ setEnabled false fooEntry :: []) (fooLine ++ nl)
     = "# */5 * * * * /usr/bin/foo" ++ nl.
Proof.
  split; [reflexivity|].
  destruct (C3_toggle_fidelity [] [] (setEnabled false fooEntry)
              (fooLine ++ nl)) as [_ [H _]].
  - reflexivity.
  - discriminate.
  - reflexivity.
  - rewrite H. vm_compute. reflexivity.
Defined.



(** C10.  When some submitted entry has the empty string as its raw line,
    no empty line of the store is kept: the second loop takes the empty
    line for the raw line of that entry. *)
Theorem C10_empty_lines_dropped :
  forall (updatedEntries : list CrontabEntry) (output : string),
    (exists entry, In entry updatedEntries /\ RawLine entry = "") ->
    keepLine updatedEntries "" = false
    /\ ~ In "" (preservedLines updatedEntries output).
Proof.
  intros updatedEntries output H.
  assert (K : keepLine updatedEntries "" = false).
  { apply keepLine_claimed. now apply isManagedComment_true. }
  split; [exact K|].
  unfold preservedLines. intros I. apply filter_In in I as [_ I]. congruence.
Qed.

Lemma C10_empty_lines_dropped_witness :
  (exists entry, In entry [backupEntry] /\ RawLine entry = "")
  /\ In "" (bufio.scanLines sampleStore)
  /\ ~ In "" (preservedLines [backupEntry] sampleStore).
Proof.
  assert (H : exists entry, In entry [backupEntry] /\ RawLine entry = "").
  { exists backupEntry. split; [now left | reflexivity]. }
  split; [exact H|]. split.
  - vm_compute. tauto.
  - exact (proj2 (C10_empty_lines_dropped [backupEntry] sampleStore H)).
Defined.

(* ================================================================== *)
(** * The parser, line by line *)

Section ParseLines.

Lemma parseStep_fold (ls : list string) (acc : list CrontabEntry) (id : Z) :
  fst (fold_left parseStep ls (acc, id)) = (acc ++ parseLines id ls)%list.
Proof.
  revert acc id; induction ls as [|l ls IH]; intros acc id; simpl.
  - now rewrite List.app_nil_r.
  - destruct (parseLine id l) as [e|]; rewrite IH; [|reflexivity].
    now rewrite <- List.app_assoc.
Qed.

Lemma parse_lines (id : Z) (output : string) :
  parse id output = parseLines id (bufio.scanLines output).
Proof. unfold parse, parseCrontabOutput. now rewrite parseStep_fold. Qed.

(** The identifier plays no part in what a line is parsed into. *)
Lemma parseLine_setID (id : Z) (line : string) :
  parseLine id line = option_map (setID id) (parseLine 0 line).
Proof.
  unfold parseLine.
  repeat match goal with
         | |- context [if ?b then _ else _] => destruct b
         end; reflexivity.
Qed.

Lemma parseLine_None (id id' : Z) (line : string) :
  parseLine id line = None -> parseLine id' line = None.
Proof.
  rewrite (parseLine_setID id), (parseLine_setID id').
  now destruct (parseLine 0 line).
Qed.

Lemma parseLine_RawLine (id : Z) (line : string) (entry : CrontabEntry) :
  parseLine id line = Some entry -> RawLine entry = line.
Proof.
  unfold parseLine.
  repeat match goal with
         | |- context [if ?b then _ else _] => destruct b
         end; intros H; inversion H; reflexivity.
Qed.

(** Every parsed entry comes from a line of the text. *)
Lemma parseLines_origin (ls : list string) (id : Z) (entry : CrontabEntry) :
  In entry (parseLines id ls) ->
  exists l id0, In l ls /\ parseLine id0 l = Some entry.
Proof.
  revert id; induction ls as [|l ls IH]; intros id; simpl; [tauto|].
  destruct (parseLine id l) as [e|] eqn:E.
  - intros [<-|H].
    + exists l, id. now split; [left|].
    + destruct (IH _ H) as [l' [id0 [I P]]]. exists l', id0. now split; [right|].
  - intros H. destruct (IH _ H) as [l' [id0 [I P]]].
    exists l', id0. now split; [right|].
Qed.

End ParseLines.




Example C1_scenario :
  reconcile [editedFoo] (fooLine ++ nl) = "*/5 * * * * /usr/bin/bar" ++ nl.
Proof. vm_compute. reflexivity. Qed.

(** C2.  A comment of the user's own is lost.  In the store "# some note"
    the comment is a line the scanner returns, the task pattern does not
    match it, the parser makes no entry of it and, with nothing submitted,
    it is no raw line of a submitted entry; yet the second loop keeps
    nothing, whatever is submitted, and the reconciled text is empty.  The
    comment branch of the loop refuses every line that begins with "# ". *)
Theorem C2_foreign_comment_dropped :
  bufio.scanLines ("# some note" ++ nl) = ["# some note"]
  /\ regexp.MatchString "# some note" = false
  /\ (forall id, parse id ("# some note" ++ nl) = [])
  /\ (forall updatedEntries,
        preservedLines updatedEntries ("# some note" ++ nl) = [])
  /\ reconcile [] ("# some note" ++ nl) = "".
Proof.
  split; [vm_compute; reflexivity|]. split; [vm_compute; reflexivity|].
  split; [intros id; vm_compute; reflexivity|].
  split; [|vm_compute; reflexivity].
  intros updatedEntries. unfold preservedLines.
  change (bufio.scanLines ("# some note" ++ nl)) with ["# some note"].
  cbn [filter]. rewrite keepLine_spec. unfold foreignLine.
  change (strings.HasPrefix "# some note" "# ") with true.
  now rewrite andb_false_r.
Qed.

(** X20.  What the second loop keeps of the listing: exactly the lines the
    scanner returns that the task pattern does not match, that are not the
    raw line of a submitted entry and that do not begin with "# ",
    unchanged and in the order of the listing; the reconciled text is the
    texts of the submitted entries followed by these lines, each with its
    newline. *)
Theorem foreign_lines_kept :
  forall (updatedEntries : list CrontabEntry) (output : string),
    preservedLines updatedEntries output
    = filter (foreignLine updatedEntries) (bufio.scanLines output)
    /\ reconcile updatedEntries output
       = concatAll (map entryText updatedEntries)
         ++ unlines (filter (foreignLine updatedEntries)
                            (bufio.scanLines output))
    /\ (forall line,
           In line (bufio.scanLines output) ->
           regexp.MatchString line = false ->
           (forall e, In e updatedEntries -> RawLine e <> line) ->
           strings.HasPrefix line "# " = false ->
           In line (preservedLines updatedEntries output)).
Proof.
  intros updatedEntries output. split; [apply preservedLines_spec|]. split.
  - now rewrite reconcile_shape, preservedLines_spec.
  - intros line Hl Hm Hc Hp. unfold preservedLines. apply filter_In.
    split; [exact Hl|]. apply keepLine_foreign; trivial.
    now apply isManagedComment_false.
Qed.

Lemma foreign_lines_kept_witness :
  In "#some note" (bufio.scanLines sampleStore)
  /\ In "#some note" (preservedLines [editedFoo] sampleStore).
Proof.
  assert (L : In "#some note" (bufio.scanLines sampleStore))
    by (vm_compute; tauto).
  split; [exact L|].
  apply (proj2 (proj2 (foreign_lines_kept [editedFoo] sampleStore))).
  - exact L.
  - reflexivity.
  - intros e [<-|[]]. discriminate.
  - reflexivity.
Defined.

(** C9.  An assignment is lost when its value is six words or more.  The
    line "PATH=/a /b /c /d /e /f" contains "=" and does not begin with
    "*": the parser makes no entry of it.  But the task pattern matches it,
    and the second loop keeps a line that is no comment only when the
    pattern does not match: whatever is submitted, nothing of the store is
    kept, and with nothing submitted the reconciled text is empty. *)
Theorem C9_assignment_line_dropped :
  bufio.scanLines (pathLine ++ nl) = [pathLine]
  /\ strings.Contains pathLine "=" = true
  /\ strings.HasPrefix pathLine "*" = false
  /\ (forall id, parseLine id pathLine = None)
  /\ (forall id, parse id (pathLine ++ nl) = [])
  /\ regexp.MatchString pathLine = true
  /\ (forall updatedEntries,
        preservedLines updatedEntries (pathLine ++ nl) = [])
  /\ reconcile [] (pathLine ++ nl) = "".
Proof.
  split; [vm_compute; reflexivity|]. split; [vm_compute; reflexivity|].
  split; [vm_compute; reflexivity|].
  split; [intros id; vm_compute; reflexivity|].
  split; [intros id; vm_compute; reflexivity|].
  split; [vm_compute; reflexivity|].
  split; [|vm_compute; reflexivity].
  intros updatedEntries. unfold preservedLines.
  replace (bufio.scanLines (pathLine ++ nl)) with [pathLine]
    by (vm_compute; reflexivity).
  cbn [filter]. rewrite keepLine_spec. unfold foreignLine.
  replace (regexp.MatchString pathLine) with true by (vm_compute; reflexivity).
  cbn [negb]. now rewrite andb_false_r.
Qed.

(** X21.  A line the scanner returns that contains "=" and begins neither
    with "*" nor with "# " is never parsed into an entry, and no parsed
    entry has it as raw line; when in addition the task pattern does not
    match it, as with "FOO=bar", the second loop keeps it in every save in
    which no submitted raw line equals it. *)
Theorem assignment_lines_skipped :
  forall (output line : string),
    In line (bufio.scanLines output) ->
    strings.Contains line "=" = true ->
    strings.HasPrefix line "*" = false ->
    strings.HasPrefix line "# " = false ->
    (forall id, parseLine id line = None)
    /\ (forall id entry, In entry (parse id output) -> RawLine entry <> line)
    /\ (forall updatedEntries,
           regexp.MatchString line = false ->
           (forall e, In e updatedEntries -> RawLine e <> line) ->
           In line (preservedLines updatedEntries output)).
Proof.
  intros output line Hl He Hs Hp.
  assert (P : forall id, parseLine id line = None).
  { intros id. unfold parseLine. rewrite He, Hs, Hp. simpl.
    destruct (_ =? _); [reflexivity|].
    destruct (strings.HasPrefix line "#"); reflexivity. }
  split; [exact P|]. split.
  - intros id entry I R. rewrite parse_lines in I.
    apply parseLines_origin in I as [l [id0 [_ Q]]].
    pose proof (parseLine_RawLine _ _ _ Q) as R'.
    rewrite R in R'. subst l. rewrite P in Q. discriminate Q.
  - intros updatedEntries Hm Hc. unfold preservedLines. apply filter_In.
    split; [exact Hl|]. apply keepLine_foreign; trivial.
    now apply isManagedComment_false.
Qed.

Lemma assignment_lines_skipped_witness :
  In "FOO=bar" (bufio.scanLines sampleStore)
  /\ parseLine 1 "FOO=bar" = None
  /\ In "FOO=bar" (preservedLines [editedFoo] sampleStore).
Proof.
  assert (L : In "FOO=bar" (bufio.scanLines sampleStore))
    by (vm_compute; tauto).
  destruct (assignment_lines_skipped sampleStore "FOO=bar" L
              eq_refl eq_refl eq_refl)
    as [P [_ K]].
  split; [exact L|]. split; [apply P|].
  apply K; [reflexivity|]. intros e [<-|[]]. discriminate.
Defined.

(* ================================================================== *)
(** * The claims on [getCrontab] *)

(** C8.  As amended: when the listing exits with a status other than zero
    and its standard error contains "no crontab for", the request succeeds
    with the empty list of entries; after every other failure of the
    listing the request fails with status 500 and the message "Failed to
    list crontab: " followed by the text of the error value, which for an
    exit status is the process state and not the captured standard error. *)
Theorem C8_listing_failure :
  forall (g : Globals) (output : string),
    (forall processState stderr,
        strings.Contains stderr "no crontab for" = true ->
        getCrontab g output (Some (ExitError processState stderr))
        = (Entries [], g))
    /\ (forall processState stderr,
           strings.Contains stderr "no crontab for" = false ->
           getCrontab g output (Some (ExitError processState stderr))
           = (HttpError 500 ("Failed to list crontab: " ++ processState), g))
    /\ (forall msg,
           getCrontab g output (Some (OtherError msg))
           = (HttpError 500 ("Failed to list crontab: " ++ msg), g)).
Proof.
  intros g output. split; [|split].
  - intros ps stderr H. unfold getCrontab. now rewrite H.
  - intros ps stderr H. unfold getCrontab. now rewrite H.
  - reflexivity.
Qed.

Lemma C8_listing_failure_witness :
  getCrontab initial "" (Some (ExitError "exit status 1" "no crontab for root"))
  = (Entries [], initial)
  /\ getCrontab initial "" (Some (ExitError "exit status 1" deniedStderr))
     = (HttpError 500 "Failed to list crontab: exit status 1", initial).
Proof.
  destruct (C8_listing_failure initial "") as [A [B _]]. split.
  - apply A. reflexivity.
  - apply (B "exit status 1" deniedStderr). reflexivity.
Defined.

(** C8 as stated fails: what [crontab -l] wrote on standard error when it
    was refused is not in the message sent to the caller. *)
Lemma C8_diagnostic_not_sent :
  ~ diagnostic_surfaced initial "" "exit status 1" deniedStderr.
Proof.
  intros H. destruct H as [code [message [E C]]]; [reflexivity|].
  vm_compute in E. injection E as <- <-. vm_compute in C. discriminate C.
Qed.

(* ================================================================== *)
(** * The scanner *)

Section Scanner.

Lemma rawLines_line (l rest : string) :
  hasByte LF l = false ->
  bufio.rawLines (l ++ nl ++ rest) = l :: bufio.rawLines rest.
Proof.
  induction l as [|c l IH]; intros H.
  - reflexivity.
  - simpl in H. apply orb_false_iff in H as [Hc Hl].
    cbn [append bufio.rawLines]. rewrite Hc, (IH Hl). reflexivity.
Qed.

Lemma rawLines_unlines (ls : list string) :
  (forall l, In l ls -> hasByte LF l = false) ->
  bufio.rawLines (unlines ls) = ls.
Proof.
  induction ls as [|l ls IH]; intros H; [reflexivity|].
  unfold unlines. cbn [map concatAll]. rewrite <- app_assoc.
  rewrite rawLines_line by (apply H; now left).
  f_equal. apply IH. intros l' I. apply H. now right.
Qed.

Lemma takeFitting_all (ls : list string) :
  (forall l, In l ls -> bufio.fits l = true) -> bufio.takeFitting ls = ls.
Proof.
  induction ls as [|l ls IH]; intros H; [reflexivity|].
  simpl. rewrite (H l) by now left. f_equal. apply IH.
  intros l' I. apply H. now right.
Qed.

(** Lines written one after the other, each with its newline, are read
    back one by one, less a trailing carriage return. *)
Lemma scanLines_unlines (ls : list string) :
  (forall l, In l ls -> hasByte LF l = false) ->
  (forall l, In l ls -> bufio.fits l = true) ->
  bufio.scanLines (unlines ls) = map bufio.dropCR ls.
Proof.
  intros H1 H2. unfold bufio.scanLines.
  now rewrite rawLines_unlines, takeFitting_all.
Qed.

Lemma rawLines_noLF (s l : string) :
  In l (bufio.rawLines s) -> hasByte LF l = false.
Proof.
  revert l; induction s as [|c s IH]; intros l; simpl; [tauto|].
  destruct (Ascii.eqb c LF) eqn:E.
  - intros [<-|I]; [reflexivity | now apply IH].
  - destruct (bufio.rawLines s) as [|x xs].
    + intros [<-|[]]. simpl. now rewrite E.
    + intros [<-|I].
      * simpl. rewrite E. apply IH. now left.
      * apply IH. now right.
Qed.

Lemma takeFitting_In (ls : list string) (l : string) :
  In l (bufio.takeFitting ls) -> In l ls /\ bufio.fits l = true.
Proof.
  induction ls as [|x ls IH]; simpl; [tauto|].
  destruct (bufio.fits x) eqn:E; [|intros []].
  intros [<-|I]; [now split; [left|]|].
  destruct (IH I). now split; [right|].
Qed.

(** A line without its trailing carriage return. *)
Lemma dropCR_cases (s : string) :
  bufio.dropCR s = s \/ s = bufio.dropCR s ++ CRs.
Proof.
  induction s as [|c s IH]; [now left|].
  destruct s as [|d s].
  - simpl. destruct (Ascii.eqb_spec c CR) as [->|N]; [now right | now left].
  - change (bufio.dropCR (String c (String d s)))
      with (String c (bufio.dropCR (String d s))).
    destruct IH as [IH|IH].
    + left. now rewrite IH.
    + right. cbn [append]. now rewrite <- IH.
Qed.

Lemma dropCR_length (s : string) :
  (String.length (bufio.dropCR s) <= String.length s)%nat.
Proof.
  destruct (dropCR_cases s) as [H|H].
  - rewrite H. lia.
  - rewrite H at 2. rewrite length_app. lia.
Qed.

Lemma dropCR_hasByte (c : ascii) (s : string) :
  hasByte c s = false -> hasByte c (bufio.dropCR s) = false.
Proof.
  destruct (dropCR_cases s) as [H|H].
  - now rewrite H.
  - rewrite H at 1. rewrite hasByte_app. intros E.
    now apply orb_false_iff in E as [E _].
Qed.

Lemma fits_le (a b : string) :
  (String.length a <= String.length b)%nat ->
  bufio.fits b = true -> bufio.fits a = true.
Proof.
  unfold bufio.fits. intros L H.
  apply N.ltb_lt in H. apply N.ltb_lt. lia.
Qed.

(** What the scanner yields has no newline inside and fits its buffer. *)
Lemma scanLines_In (s l : string) :
  In l (bufio.scanLines s) -> hasByte LF l = false /\ bufio.fits l = true.
Proof.
  unfold bufio.scanLines. intros H.
  apply in_map_iff in H as [r [<- I]].
  apply takeFitting_In in I as [I F]. split.
  - apply dropCR_hasByte. now apply rawLines_noLF with s.
  - apply fits_le with r; [apply dropCR_length | exact F].
Qed.

Lemma HasSuffix_app (a b : string) :
  strings.HasSuffix (a ++ b) b = true.
Proof.
  induction a as [|c a IH].
  - simpl. destruct b; simpl; [reflexivity|].
    now rewrite Ascii.eqb_refl, String.eqb_refl.
  - cbn [append strings.HasSuffix]. rewrite IH. apply orb_true_r.
Qed.

Lemma dropCR_stable (s : string) :
  strings.HasSuffix s CRs = false -> bufio.dropCR s = s.
Proof.
  intros H. destruct (dropCR_cases s) as [E|E]; [exact E|].
  rewrite E in H. now rewrite HasSuffix_app in H.
Qed.

(** The carriage return is looked for after the last byte only. *)
Lemma dropCR_app_cons (a b : string) (x : ascii) :
  Ascii.eqb x CR = false ->
  bufio.dropCR (a ++ String x b) = a ++ String x (bufio.dropCR b).
Proof.
  intros N. induction a as [|c a IH].
  - cbn [append]. destruct b as [|d b]; [|reflexivity].
    simpl. now rewrite N.
  - cbn [append]. rewrite <- IH.
    destruct (a ++ String x b) eqn:E; [|reflexivity].
    destruct a; discriminate E.
Qed.

Lemma rawLines_nil (s : string) : bufio.rawLines s = [] -> s = "".
Proof.
  destruct s as [|c s]; [reflexivity|]. simpl.
  destruct (Ascii.eqb c LF); [discriminate|].
  destruct (bufio.rawLines s); discriminate.
Qed.

(** The lines are the text: joined again, each with its newline, they give
    the text back, with the newline its last line may have lacked. *)
Lemma rawLines_text (s : string) :
  unlines (bufio.rawLines s) = s \/ unlines (bufio.rawLines s) = s ++ nl.
Proof.
  induction s as [|c s IH]; [now left|]. simpl.
  destruct (Ascii.eqb_spec c LF) as [->|N].
  - unfold unlines in *. cbn [map concatAll append].
    destruct IH as [IH|IH]; rewrite IH; [now left | now right].
  - destruct (bufio.rawLines s) as [|l ls] eqn:E.
    + apply rawLines_nil in E. subst s. now right.
    + unfold unlines in *. cbn [map concatAll append] in *.
      destruct IH as [IH|IH]; rewrite IH; [now left | now right].
Qed.

End Scanner.

(* ================================================================== *)
(** * The task pattern *)

Section TaskPattern.

Lemma isField_inv (tok : string) :
  isField tok = true ->
  exists c r, tok = String c r /\ regexp.isSpace c = false
              /\ noSpace r = true.
Proof.
  unfold isField. destruct tok as [|c r]; [discriminate|]. simpl.
  intros H. apply andb_true_iff in H as [H1 H2].
  apply negb_true_iff in H1. now exists c, r.
Qed.

Lemma isField_noSpace (tok : string) : isField tok = true -> noSpace tok = true.
Proof. unfold isField. intros H. now apply andb_true_iff in H as [_ H]. Qed.

Lemma spanNonSpace_app (tok rest : string) (a : ascii) :
  noSpace tok = true -> regexp.isSpace a = true ->
  regexp.spanNonSpace (tok ++ String a rest) = (tok, String a rest).
Proof.
  intros H Ha. induction tok as [|c tok IH].
  - simpl. now rewrite Ha.
  - simpl in H. apply andb_true_iff in H as [Hc Ht].
    apply negb_true_iff in Hc. cbn [append regexp.spanNonSpace].
    now rewrite Hc, (IH Ht).
Qed.

Lemma spanNonSpace_spec (s tok rest : string) :
  regexp.spanNonSpace s = (tok, rest) ->
  s = tok ++ rest /\ noSpace tok = true
  /\ (rest = "" \/ exists a r, rest = String a r /\ regexp.isSpace a = true).
Proof.
  revert tok rest; induction s as [|c s IH]; intros tok rest; simpl.
  - intros H; inversion H. now repeat split; [left].
  - destruct (regexp.isSpace c) eqn:E.
    + intros H; inversion H; subst. repeat split.
      right. now exists c, s.
    + destruct (regexp.spanNonSpace s) as [t r].
      intros H; inversion H; subst.
      destruct (IH t rest eq_refl) as [-> [N R]].
      repeat split; [|exact R]. simpl. now rewrite E, N.
Qed.

Lemma skipSpace_cons (a : ascii) (r : string) :
  regexp.isSpace a = true ->
  regexp.skipSpace (String a r) = regexp.skipSpace r.
Proof. intros H. simpl. now rewrite H. Qed.

Lemma skipSpace_field (tok x : string) :
  isField tok = true -> regexp.skipSpace (tok ++ x) = tok ++ x.
Proof.
  intros H. apply isField_inv in H as [c [r [-> [Hc _]]]].
  simpl. now rewrite Hc.
Qed.

Lemma skipSpace_trimmed (c : string) :
  leadingSpace c = 0%nat -> regexp.skipSpace c = c.
Proof.
  destruct c as [|a r]; [reflexivity|]. intros H. simpl.
  destruct (regexp.isSpace a) eqn:E; [|reflexivity].
  rewrite (leadingSpace_regexp_space _ _ E) in H. discriminate H.
Qed.

Lemma skipSpace_hasByte (x : ascii) (s : string) :
  hasByte x s = false -> hasByte x (regexp.skipSpace s) = false.
Proof.
  induction s as [|c s IH]; [reflexivity|]. simpl. intros H.
  apply orb_false_iff in H as [H1 H2].
  destruct (regexp.isSpace c); [now apply IH|].
  simpl. now rewrite H1, H2.
Qed.

Lemma skipSpace_length (s : string) :
  (String.length (regexp.skipSpace s) <= String.length s)%nat.
Proof.
  induction s as [|c s IH]; simpl; [lia|].
  destruct (regexp.isSpace c); simpl; lia.
Qed.

(** A field, a separator, and the rest. *)
Lemma field_intro (tok mid : string) (a : ascii) :
  isField tok = true -> regexp.isSpace a = true ->
  regexp.field (tok ++ String a mid) = Some (tok, regexp.skipSpace mid).
Proof.
  intros F A. unfold regexp.field.
  rewrite spanNonSpace_app by (trivial; now apply isField_noSpace).
  apply isField_inv in F as [c [r [-> _]]]. cbv iota beta.
  now rewrite (skipSpace_cons a mid A).
Qed.

Lemma field_spec (s tok rest : string) :
  regexp.field s = Some (tok, rest) ->
  isField tok = true
  /\ exists a mid, regexp.isSpace a = true
                   /\ s = tok ++ String a mid
                   /\ rest = regexp.skipSpace mid.
Proof.
  unfold regexp.field.
  destruct (regexp.spanNonSpace s) as [t r] eqn:E.
  apply spanNonSpace_spec in E as [-> [N R]].
  destruct t as [|c t]; [discriminate|].
  destruct r as [|a mid]; [discriminate|].
  intros H; inversion H; subst.
  destruct R as [R|[a' [r' [R A]]]]; [discriminate|].
  inversion R; subst. split.
  - unfold isField. now rewrite N.
  - exists a', r'. now rewrite A.
Qed.

(** The submatches, when there are any. *)
Lemma FindStringSubmatch_inv (s : string) :
  (List.length (regexp.FindStringSubmatch s) =? 7)%nat = true ->
  exists g1 s1 g2 s2 g3 s3 g4 s4 g5 s5,
    regexp.field s = Some (g1, s1) /\ regexp.field s1 = Some (g2, s2)
    /\ regexp.field s2 = Some (g3, s3) /\ regexp.field s3 = Some (g4, s4)
    /\ regexp.field s4 = Some (g5, s5) /\ hasByte LF s5 = false
    /\ regexp.FindStringSubmatch s = [s; g1; g2; g3; g4; g5; s5].
Proof.
  unfold regexp.FindStringSubmatch.
  destruct (regexp.field s) as [[g1 s1]|] eqn:E1; [|discriminate].
  destruct (regexp.field s1) as [[g2 s2]|] eqn:E2; [|discriminate].
  destruct (regexp.field s2) as [[g3 s3]|] eqn:E3; [|discriminate].
  destruct (regexp.field s3) as [[g4 s4]|] eqn:E4; [|discriminate].
  destruct (regexp.field s4) as [[g5 s5]|] eqn:E5; [|discriminate].
  destruct (hasByte LF s5) eqn:E; [discriminate|]. intros _.
  exists g1, s1, g2, s2, g3, s3, g4, s4, g5, s5. now repeat split.
Qed.

Lemma MatchString_length (s : string) :
  regexp.MatchString s
  = (List.length (regexp.FindStringSubmatch s) =? 7)%nat.
Proof.
  unfold regexp.MatchString, regexp.FindStringSubmatch.
  repeat match goal with
         | |- context [match regexp.field ?x with _ => _ end] =>
           destruct (regexp.field x) as [[? ?]|]; try reflexivity
         end.
  now destruct (hasByte LF _).
Qed.

(** Five fields joined to a command by single spaces are a task line,
    and are read back as they were written. *)
Lemma FindStringSubmatch_joined (m h d M w c : string) :
  isField m = true -> isField h = true -> isField d = true ->
  isField M = true -> isField w = true ->
  hasByte LF c = false ->
  regexp.FindStringSubmatch (fmt.Sprintf6 m h d M w c)
  = [fmt.Sprintf6 m h d M w c; m; h; d; M; w; regexp.skipSpace c].
Proof.
  intros Fm Fh Fd FM Fw Hc.
  unfold regexp.FindStringSubmatch, fmt.Sprintf6. cbn [append].
  rewrite (field_intro m) by (trivial; reflexivity).
  rewrite (skipSpace_field h) by trivial.
  rewrite (field_intro h) by (trivial; reflexivity).
  rewrite (skipSpace_field d) by trivial.
  rewrite (field_intro d) by (trivial; reflexivity).
  rewrite (skipSpace_field M) by trivial.
  rewrite (field_intro M) by (trivial; reflexivity).
  rewrite (skipSpace_field w) by trivial.
  rewrite (field_intro w) by (trivial; reflexivity).
  now rewrite (skipSpace_hasByte _ _ Hc).
Qed.

(** ** The matcher against the pattern read as a language *)

Lemma skipSpace_allSpace (w rest : string) :
  allSpace w = true -> regexp.skipSpace (w ++ rest) = regexp.skipSpace rest.
Proof.
  induction w as [|c w IH]; [reflexivity|]. simpl. intros H.
  apply andb_true_iff in H as [Hc Hw]. now rewrite Hc, IH.
Qed.

Lemma skipSpace_split (mid : string) :
  exists w, allSpace w = true /\ mid = w ++ regexp.skipSpace mid.
Proof.
  induction mid as [|c mid [w [A E]]]; [now exists ""|]. simpl.
  destruct (regexp.isSpace c) eqn:C.
  - exists (String c w). simpl. rewrite C, A. split; [reflexivity|].
    now rewrite <- E.
  - now exists "".
Qed.

Lemma skipSpace_idem (s : string) :
  regexp.skipSpace (regexp.skipSpace s) = regexp.skipSpace s.
Proof.
  induction s as [|c s IH]; [reflexivity|]. simpl.
  destruct (regexp.isSpace c) eqn:C; [exact IH|]. simpl. now rewrite C.
Qed.

Lemma isSeparator_inv (w : string) :
  isSeparator w = true ->
  exists a w', w = String a w' /\ regexp.isSpace a = true
               /\ allSpace w' = true.
Proof.
  unfold isSeparator. destruct w as [|a w']; [discriminate|]. simpl.
  intros H. apply andb_true_iff in H as [Ha Hw]. now exists a, w'.
Qed.

Lemma field_separated (g w rest : string) :
  isField g = true -> isSeparator w = true ->
  regexp.field (g ++ w ++ rest) = Some (g, regexp.skipSpace rest).
Proof.
  intros G W. apply isSeparator_inv in W as [a [w' [-> [A W]]]].
  cbn [append]. rewrite field_intro by trivial.
  now rewrite skipSpace_allSpace.
Qed.

Lemma field_separated_inv (s g r : string) :
  regexp.field s = Some (g, r) ->
  exists w, isSeparator w = true /\ s = g ++ w ++ r
            /\ regexp.skipSpace r = r.
Proof.
  intros H. apply field_spec in H as [G [a [mid [A [-> ->]]]]].
  destruct (skipSpace_split mid) as [w [W E]].
  exists (String a w). repeat split.
  - unfold isSeparator. simpl. now rewrite A, W.
  - cbn [append]. now rewrite <- E.
  - apply skipSpace_idem.
Qed.

(** Whatever the matcher returns is a reading of the line as a task line,
    and the last separator of that reading is the longest one. *)
Lemma FindStringSubmatch_sound (s : string) :
  regexp.MatchString s = true ->
  exists g1 g2 g3 g4 g5 g6,
    regexp.FindStringSubmatch s = [s; g1; g2; g3; g4; g5; g6]
    /\ taskLine s g1 g2 g3 g4 g5 g6
    /\ regexp.skipSpace g6 = g6.
Proof.
  rewrite MatchString_length. intros H.
  apply FindStringSubmatch_inv in H
    as (g1 & s1 & g2 & s2 & g3 & s3 & g4 & s4 & g5 & s5
        & F1 & F2 & F3 & F4 & F5 & N & E).
  exists g1, g2, g3, g4, g5, s5. split; [exact E|].
  pose proof (proj1 (field_spec _ _ _ F1)) as G1.
  pose proof (proj1 (field_spec _ _ _ F2)) as G2.
  pose proof (proj1 (field_spec _ _ _ F3)) as G3.
  pose proof (proj1 (field_spec _ _ _ F4)) as G4.
  pose proof (proj1 (field_spec _ _ _ F5)) as G5.
  apply field_separated_inv in F1 as [w1 [W1 [-> _]]].
  apply field_separated_inv in F2 as [w2 [W2 [-> _]]].
  apply field_separated_inv in F3 as [w3 [W3 [-> _]]].
  apply field_separated_inv in F4 as [w4 [W4 [-> _]]].
  apply field_separated_inv in F5 as [w5 [W5 [-> K]]].
  split; [|exact K].
  exists w1, w2, w3, w4, w5. now repeat split.
Qed.

(** Every reading of a line as a task line is found: the five fields are
    those of the reading, and the command is that of the reading less the
    white space the last separator takes first. *)
Lemma FindStringSubmatch_complete (s g1 g2 g3 g4 g5 g6 : string) :
  taskLine s g1 g2 g3 g4 g5 g6 ->
  regexp.FindStringSubmatch s
  = [s; g1; g2; g3; g4; g5; regexp.skipSpace g6].
Proof.
  intros (w1 & w2 & w3 & w4 & w5 & -> & G1 & G2 & G3 & G4 & G5
          & W1 & W2 & W3 & W4 & W5 & N).
  unfold regexp.FindStringSubmatch.
  rewrite (field_separated g1 w1) by trivial.
  rewrite (skipSpace_field g2) by trivial.
  rewrite (field_separated g2 w2) by trivial.
  rewrite (skipSpace_field g3) by trivial.
  rewrite (field_separated g3 w3) by trivial.
  rewrite (skipSpace_field g4) by trivial.
  rewrite (field_separated g4 w4) by trivial.
  rewrite (skipSpace_field g5) by trivial.
  rewrite (field_separated g5 w5) by trivial.
  now rewrite (skipSpace_hasByte _ _ N).
Qed.

(** The pattern matches exactly the task lines. *)
Lemma MatchString_taskLine (s : string) :
  regexp.MatchString s = true
  <-> exists g1 g2 g3 g4 g5 g6, taskLine s g1 g2 g3 g4 g5 g6.
Proof.
  split.
  - intros H. apply FindStringSubmatch_sound in H
      as (g1 & g2 & g3 & g4 & g5 & g6 & _ & T & _).
    now exists g1, g2, g3, g4, g5, g6.
  - intros (g1 & g2 & g3 & g4 & g5 & g6 & T).
    unfold regexp.MatchString.
    now rewrite (FindStringSubmatch_complete _ _ _ _ _ _ _ T).
Qed.

End TaskPattern.

(* ================================================================== *)
(** * Reconciling against the reconciled text *)

Section SecondPass.

Variable updatedEntries : list CrontabEntry.

Lemma filter_all {A : Type} (f : A -> bool) (l : list A) :
  (forall x, In x l -> f x = true) -> filter f l = l.
Proof.
  induction l as [|x l IH]; intros H; [reflexivity|]. simpl.
  rewrite (H x) by now left. f_equal. apply IH. intros y I. apply H. now right.
Qed.

Lemma filter_none {A : Type} (f : A -> bool) (l : list A) :
  (forall x, In x l -> f x = false) -> filter f l = [].
Proof.
  induction l as [|x l IH]; intros H; [reflexivity|]. simpl.
  rewrite (H x) by now left. apply IH. intros y I. apply H. now right.
Qed.

Lemma keepLine_hash_space (line : string) :
  strings.HasPrefix line "# " = true -> keepLine updatedEntries line = false.
Proof.
  intros H. rewrite keepLine_spec. unfold foreignLine. rewrite H.
  now rewrite andb_false_r.
Qed.

(** The canonical line loses its carriage return within the command. *)
Lemma dropCR_joined (m h d M w c : string) :
  bufio.dropCR (fmt.Sprintf6 m h d M w c)
  = fmt.Sprintf6 m h d M w (bufio.dropCR c).
Proof.
  unfold fmt.Sprintf6. cbn [append].
  now rewrite !dropCR_app_cons by reflexivity.
Qed.

Lemma dropCR_commented (x : string) :
  bufio.dropCR ("# " ++ x) = "# " ++ bufio.dropCR x.
Proof. exact (dropCR_app_cons "#" x " " eq_refl). Qed.

Lemma hasByte_joined (x : ascii) (m h d M w c : string) :
  hasByte x (fmt.Sprintf6 m h d M w c) = false -> hasByte x c = false.
Proof.
  unfold fmt.Sprintf6. rewrite !hasByte_app. intros H.
  repeat (apply orb_false_iff in H as [_ H]). exact H.
Qed.

(** The line written for a well-formed entry is not kept when it is read
    back. *)
Lemma entryLine_dropped (entry : CrontabEntry) :
  In entry updatedEntries -> wellFormed entry = true ->
  keepLine updatedEntries (bufio.dropCR (entryLine entry)) = false.
Proof.
  intros I W. unfold wellFormed in W.
  apply andb_true_iff in W as [W W3]. apply andb_true_iff in W as [W1 _].
  apply negb_true_iff in W1. unfold entryLine in *.
  destruct (Enabled entry).
  - do 4 (apply andb_true_iff in W3 as [W3 ?]).
    apply keepLine_task. unfold canonical in *. rewrite dropCR_joined.
    unfold regexp.MatchString.
    rewrite FindStringSubmatch_joined; trivial.
    apply dropCR_hasByte. eapply hasByte_joined; eassumption.
  - apply negb_true_iff in W3.
    destruct (RawLine entry =? "") eqn:E.
    + apply keepLine_hash_space. rewrite dropCR_commented.
      apply prefix_app.
    + destruct (strings.HasPrefix (RawLine entry) "#").
      * rewrite dropCR_stable by exact W3.
        apply keepLine_claimed, isManagedComment_true. now exists entry.
      * apply keepLine_hash_space. rewrite dropCR_commented.
        apply prefix_app.
Qed.

(** A second pass over the text of the first changes nothing when the
    lines of the first pass are read back as they were written. *)
Lemma reconcile_again (output : string) :
  (forall entry, In entry updatedEntries -> wellFormed entry = true) ->
  (forall line, In line (preservedLines updatedEntries output) ->
                strings.HasSuffix line CRs = false) ->
  reconcile updatedEntries (reconcile updatedEntries output)
  = reconcile updatedEntries output.
Proof.
  intros W C.
  rewrite (reconcile_lines updatedEntries (reconcile _ _)).
  rewrite (reconcile_lines updatedEntries output) at 2. f_equal. f_equal.
  unfold preservedLines at 1. rewrite reconcile_lines.
  rewrite scanLines_unlines.
  - rewrite map_app, filter_app.
    rewrite filter_none, filter_all.
    + simpl. rewrite <- (map_id (preservedLines updatedEntries output)) at 2.
      apply map_ext_in. intros l I. apply dropCR_stable, C, I.
    + intros x I. apply in_map_iff in I as [l [<- I]].
      rewrite (dropCR_stable l) by (apply C, I).
      unfold preservedLines in I. now apply filter_In in I.
    + intros x I. apply in_map_iff in I as [l [<- I]].
      unfold emittedLines in I. apply in_map_iff in I as [e [<- I]].
      apply entryLine_dropped; [exact I | apply W, I].
  - intros l I. apply in_app_or in I as [I|I].
    + unfold emittedLines in I. apply in_map_iff in I as [e [<- I]].
      specialize (W e I). unfold wellFormed in W.
      apply andb_true_iff in W as [W _]. apply andb_true_iff in W as [W _].
      now apply negb_true_iff in W.
    + unfold preservedLines in I. apply filter_In in I as [I _].
      now apply scanLines_In in I.
  - intros l I. apply in_app_or in I as [I|I].
    + unfold emittedLines in I. apply in_map_iff in I as [e [<- I]].
      specialize (W e I). unfold wellFormed in W.
      apply andb_true_iff in W as [W _]. now apply andb_true_iff in W as [_ W].
    + unfold preservedLines in I. apply filter_In in I as [I _].
      now apply scanLines_In in I.
Qed.

End SecondPass.

(** C5.  As amended: reconciling a second time against the text of the
    first pass gives that text again when every submitted entry is well
    formed (its line has no newline inside and fits the scanner, its five
    schedule fields are not empty and free of white space when it is
    enabled, its raw line does not end with a carriage return when it is
    disabled) and no line kept of the store ends with a carriage return. *)
Theorem C5_idempotent_when_well_formed :
  forall (updatedEntries : list CrontabEntry) (output : string),
    (forall entry, In entry updatedEntries -> wellFormed entry = true) ->
    (forall line, In line (preservedLines updatedEntries output) ->
                  strings.HasSuffix line CRs = false) ->
    reconcile updatedEntries (reconcile updatedEntries output)
    = reconcile updatedEntries output.
Proof.
  intros updatedEntries output W C. now apply reconcile_again.
Qed.

Lemma C5_idempotent_when_well_formed_witness :
  reconcile [editedFoo; setEnabled false backupEntry]
            (reconcile [editedFoo; setEnabled false backupEntry] sampleStore)
  = reconcile [editedFoo; setEnabled false backupEntry] sampleStore.
Proof.
  apply C5_idempotent_when_well_formed.
  - intros entry [<-|[<-|[]]]; vm_compute; reflexivity.
  - intros line I. vm_compute in I.
    destruct I as [<-|[<-|[]]]; vm_compute; reflexivity.
Defined.

(** C5 as stated fails: an enabled entry with an empty minute is written
    as a line that begins with a space; the task pattern does not match
    that line, so the second pass keeps it and the text grows. *)
Lemma C5_not_idempotent : ~ idempotent [blankMinute] "".
Proof. unfold idempotent. vm_compute. discriminate. Qed.

Example C5_scenario :
  reconcile [blankMinute] "" = unlines [" 3 * * * /bin/backup.sh"]
  /\ reconcile [blankMinute] (reconcile [blankMinute] "")
     = unlines [" 3 * * * /bin/backup.sh"; " 3 * * * /bin/backup.sh"].
Proof. split; vm_compute; reflexivity. Qed.

(* ================================================================== *)
(** * Parsing the reconciled text *)

Section Blank.

Lemma blank_nil : blank "".
Proof. reflexivity. Qed.

(** White space before and after an ASCII byte. *)
Lemma blank_app_ascii (x y : string) (a : ascii) :
  (byte a < 128)%N ->
  blank (x ++ String a y) -> blank x /\ blank (String a y).
Proof.
  intros A. unfold blank.
  remember (String.length x) as n eqn:Hn.
  revert x Hn. induction n as [n IH] using lt_wf_ind. intros x Hn H.
  destruct x as [|c x]; [now split|].
  destruct (leadingSpace (String c x)) as [|k] eqn:E.
  - exfalso.
    rewrite TrimLeftSpace_stable in H
      by (apply leadingSpace_stop; trivial; discriminate).
    discriminate H.
  - pose proof (leadingSpace_le (String c x)) as L. rewrite E in L.
    rewrite (TrimLeftSpace_step _ _ (leadingSpace_app _ _ _ E)) in H.
    rewrite drop_app_le in H by exact L.
    rewrite (TrimLeftSpace_step _ _ E).
    apply (IH (String.length (drop (S k) (String c x)))); trivial.
    rewrite length_drop. subst n. simpl. lia.
Qed.

Lemma blank_space (y : string) (a : ascii) :
  regexp.isSpace a = true -> blank (String a y) -> blank y.
Proof.
  intros A. unfold blank.
  now rewrite (TrimLeftSpace_step _ _ (leadingSpace_regexp_space a y A)).
Qed.

Lemma blank_space_cons (y : string) (a : ascii) :
  regexp.isSpace a = true -> blank y -> blank (String a y).
Proof.
  intros A. unfold blank.
  now rewrite (TrimLeftSpace_step _ _ (leadingSpace_regexp_space a y A)).
Qed.

Lemma blank_skipSpace (z : string) : blank (regexp.skipSpace z) -> blank z.
Proof.
  induction z as [|c z IH]; [trivial|]. simpl.
  destruct (regexp.isSpace c) eqn:E; [|trivial].
  intros H. now apply blank_space_cons, IH.
Qed.

Lemma blank_app (x y : string) : blank x -> blank y -> blank (x ++ y).
Proof.
  unfold blank. remember (String.length x) as n eqn:Hn.
  revert x Hn. induction n as [n IH] using lt_wf_ind. intros x Hn Hx Hy.
  destruct x as [|c x]; [exact Hy|].
  destruct (leadingSpace (String c x)) as [|k] eqn:E.
  - rewrite TrimLeftSpace_stable in Hx by exact E. discriminate Hx.
  - pose proof (leadingSpace_le (String c x)) as L. rewrite E in L.
    rewrite (TrimLeftSpace_step _ _ (leadingSpace_app _ _ _ E)).
    rewrite drop_app_le by exact L.
    rewrite (TrimLeftSpace_step _ _ E) in Hx.
    apply (IH (String.length (drop (S k) (String c x)))); trivial.
    rewrite length_drop. subst n. simpl. lia.
Qed.

Lemma blank_TrimSpace (s : string) : blank (strings.TrimSpace s) -> blank s.
Proof.
  unfold blank. rewrite (TrimLeftSpace_stable _ (TrimSpace_lead s)).
  apply TrimSpace_nil.
Qed.

(** A blank canonical line comes from a blank line. *)
Lemma joined_blank (n : nat) (k l : string) :
  joined n k l -> blank k -> blank l.
Proof.
  induction 1 as [s|n g k l l' F J IH]; [apply blank_TrimSpace|].
  intros B. apply blank_app_ascii in B as [Bg Bk]; [|reflexivity].
  apply blank_space in Bk; [|reflexivity].
  apply field_spec in F as [_ [a [mid [A [-> ->]]]]].
  apply blank_app; [exact Bg|].
  apply blank_space_cons; [exact A|]. apply blank_skipSpace, IH, Bk.
Qed.

End Blank.

Section Joined.

Lemma TrimSpace_length (s : string) :
  (String.length (strings.TrimSpace s) <= String.length s)%nat.
Proof.
  destruct (TrimSpace_sub s) as [a [b E]]. rewrite E at 2.
  rewrite !length_app. lia.
Qed.

Lemma TrimSpace_hasByte (x : ascii) (s : string) :
  hasByte x s = false -> hasByte x (strings.TrimSpace s) = false.
Proof.
  destruct (TrimSpace_sub s) as [a [b E]]. rewrite E at 1.
  rewrite !hasByte_app. intros H.
  apply orb_false_iff in H as [_ H]. now apply orb_false_iff in H as [H _].
Qed.

(** The trimmed command does not end with a carriage return. *)
Lemma dropCR_TrimSpace (s : string) :
  bufio.dropCR (strings.TrimSpace s) = strings.TrimSpace s.
Proof.
  destruct (dropCR_cases (strings.TrimSpace s)) as [E|E]; [exact E|].
  apply TrimSpace_last in E; [discriminate E | reflexivity].
Qed.

Lemma joined_length (n : nat) (k l : string) :
  joined n k l -> (String.length k <= String.length l)%nat.
Proof.
  induction 1 as [s|n g k l l' F J IH]; [apply TrimSpace_length|].
  apply field_spec in F as [_ [a [mid [A [-> ->]]]]].
  rewrite !length_app. simpl.
  pose proof (skipSpace_length mid). lia.
Qed.

(** A byte of the canonical line other than the space comes from the
    line. *)
Lemma joined_hasByte (x : ascii) (n : nat) (k l : string) :
  Ascii.eqb " " x = false ->
  joined n k l -> hasByte x l = false -> hasByte x k = false.
Proof.
  intros X. induction 1 as [s|n g k l l' F J IH]; [apply TrimSpace_hasByte|].
  apply field_spec in F as [_ [a [mid [A [-> ->]]]]].
  rewrite !hasByte_app. cbn [hasByte]. intros H.
  apply orb_false_iff in H as [Hg H]. apply orb_false_iff in H as [_ Hm].
  rewrite Hg, X. cbn [orb]. apply IH. now apply skipSpace_hasByte.
Qed.

(** The canonical line begins with the byte the line begins with. *)
Lemma joined_first (n : nat) (k l : string) :
  joined (S n) k l ->
  exists c r r', k = String c r /\ l = String c r'.
Proof.
  inversion 1 as [|n' g k' l0 l' F J]; subst.
  apply field_spec in F as [G [a [mid [A [-> ->]]]]].
  apply isField_inv in G as [c [r [-> _]]].
  now exists c, (r ++ String " " k'), (r ++ String a mid).
Qed.

(** One byte is found where [strings.Contains] finds it. *)
Lemma Contains_byte (s : string) (x : ascii) :
  strings.Contains s (String x "") = hasByte x s.
Proof.
  induction s as [|c s IH]; [reflexivity|].
  cbn [strings.Contains hasByte]. rewrite IH, prefix_cons, prefix_nil.
  now rewrite andb_true_r, Ascii.eqb_sym.
Qed.

Lemma HasPrefix_byte (c x : ascii) (r : string) :
  strings.HasPrefix (String c r) (String x "") = Ascii.eqb x c.
Proof.
  unfold strings.HasPrefix. rewrite prefix_cons, prefix_nil.
  apply andb_true_r.
Qed.

(** What the task pattern reads from a line, joined. *)
Lemma FindStringSubmatch_joins (s : string) (ms : list string) :
  regexp.FindStringSubmatch s = ms ->
  (List.length ms =? 7)%nat = true ->
  exists g1 g2 g3 g4 g5 s5,
    ms = [s; g1; g2; g3; g4; g5; s5]
    /\ isField g1 = true /\ isField g2 = true /\ isField g3 = true
    /\ isField g4 = true /\ isField g5 = true
    /\ hasByte LF s5 = false
    /\ joined 5 (fmt.Sprintf6 g1 g2 g3 g4 g5 (strings.TrimSpace s5)) s.
Proof.
  intros <- H.
  apply FindStringSubmatch_inv in H
    as (g1 & s1 & g2 & s2 & g3 & s3 & g4 & s4 & g5 & s5
        & F1 & F2 & F3 & F4 & F5 & N & ->).
  exists g1, g2, g3, g4, g5, s5. split; [reflexivity|].
  repeat split;
    try (now match goal with
             | F : regexp.field _ = Some (?g, _) |- isField ?g = true =>
               apply field_spec in F as [F _]
             end); trivial.
  unfold fmt.Sprintf6. cbn [append].
  repeat (eapply joined_field; [eassumption|]). apply joined_command.
Qed.

End Joined.

Section RoundTrip.

Lemma eqb_nil_false (c : ascii) (r : string) : (String c r =? "") = false.
Proof. reflexivity. Qed.

(** The canonical line of a parsed task line is parsed into the same
    values. *)
Lemma canonical_parsed (L g1 g2 g3 g4 g5 s5 : string) :
  (strings.TrimSpace L =? "") = false ->
  strings.HasPrefix L "#" = false ->
  strings.Contains L "=" && negb (strings.HasPrefix L "*") = false ->
  isField g1 = true -> isField g2 = true -> isField g3 = true ->
  isField g4 = true -> isField g5 = true ->
  hasByte LF s5 = false ->
  joined 5 (fmt.Sprintf6 g1 g2 g3 g4 g5 (strings.TrimSpace s5)) L ->
  lineFields (fmt.Sprintf6 g1 g2 g3 g4 g5 (strings.TrimSpace s5))
  = [(g1, g2, g3, g4, g5, strings.TrimSpace s5, true)].
Proof.
  intros B Hh Env F1 F2 F3 F4 F5 N J.
  set (K := fmt.Sprintf6 g1 g2 g3 g4 g5 (strings.TrimSpace s5)) in *.
  assert (B' : (strings.TrimSpace K =? "") = false).
  { apply String.eqb_neq. intros E. apply String.eqb_neq in B. apply B.
    apply TrimSpace_nil. apply (joined_blank _ _ _ J).
    now apply TrimSpace_nil. }
  destruct (joined_first _ _ _ J) as [c [r [r' [EK EL]]]].
  assert (Hh' : strings.HasPrefix K "#" = false).
  { rewrite EK, HasPrefix_byte. now rewrite EL, HasPrefix_byte in Hh. }
  assert (Env' : strings.Contains K "=" && negb (strings.HasPrefix K "*")
                 = false).
  { apply andb_false_iff in Env as [Env|Env]; apply andb_false_iff.
    - left. rewrite Contains_byte in *.
      now apply (joined_hasByte "=" _ _ _ eq_refl J).
    - right. rewrite EK, HasPrefix_byte. now rewrite EL, HasPrefix_byte in Env. }
  assert (FS : regexp.FindStringSubmatch K
               = [K; g1; g2; g3; g4; g5; strings.TrimSpace s5]).
  { unfold K. rewrite FindStringSubmatch_joined; trivial.
    - now rewrite (skipSpace_trimmed _ (TrimSpace_lead s5)).
    - now apply TrimSpace_hasByte. }
  unfold lineFields, parseLine. rewrite B', Hh', Env', FS.
  cbn [List.length Nat.eqb]. unfold fieldsOf, entryOfMatches.
  cbn [nth Minute Hour DayOfMonth Month DayOfWeek Command Enabled].
  now rewrite TrimSpace_idem.
Qed.

(** The line written for a parsed entry is read back into an entry with
    the same values. *)
Lemma entryLine_parsed (L : string) (id : Z) (entry : CrontabEntry) :
  parseLine id L = Some entry ->
  hasByte LF L = false -> bufio.fits L = true ->
  (strings.HasPrefix L "# " = true -> strings.HasSuffix L CRs = false) ->
  hasByte LF (entryLine entry) = false
  /\ bufio.fits (entryLine entry) = true
  /\ lineFields (bufio.dropCR (entryLine entry)) = [fieldsOf entry].
Proof.
  unfold parseLine.
  destruct (strings.TrimSpace L =? "") eqn:B; [discriminate|].
  destruct (strings.HasPrefix L "#") eqn:Hh.
  - destruct (strings.HasPrefix L "# ") eqn:Hs; [|discriminate].
    destruct (List.length _ =? 7)%nat eqn:M; [|discriminate].
    intros E NL F C. injection E as <-.
    match goal with
    | |- context [entryLine ?e] => assert (EL : entryLine e = L)
    end.
    { unfold entryLine, entryOfMatches. cbn [Enabled RawLine].
      destruct (HasPrefix_hash _ Hh) as [r ->].
      now rewrite eqb_nil_false, Hh. }
    rewrite EL. repeat split; trivial.
    rewrite (dropCR_stable _ (C eq_refl)).
    unfold lineFields, parseLine. now rewrite B, Hh, Hs, M.
  - destruct (strings.Contains L "=" && negb (strings.HasPrefix L "*"))
      eqn:Env; [discriminate|].
    destruct (List.length _ =? 7)%nat eqn:M; [|discriminate].
    intros E NL F _. injection E as <-.
    destruct (FindStringSubmatch_joins L _ eq_refl M)
      as (g1 & g2 & g3 & g4 & g5 & s5 & -> & F1 & F2 & F3 & F4 & F5 & N & J).
    unfold entryLine, canonical, fieldsOf, entryOfMatches.
    cbn [nth Minute Hour DayOfMonth Month DayOfWeek Command Enabled].
    split; [|split].
    + now apply (joined_hasByte LF _ _ _ eq_refl J).
    + apply fits_le with L; [now apply joined_length with 5%nat | exact F].
    + rewrite dropCR_joined, dropCR_TrimSpace.
      now apply canonical_parsed with L.
Qed.

Lemma HasPrefix_app_r (s t p : string) :
  strings.HasPrefix s p = true -> strings.HasPrefix (s ++ t) p = true.
Proof.
  unfold strings.HasPrefix. intros H. apply prefix_true in H as [r ->].
  rewrite <- app_assoc. apply prefix_app.
Qed.

Lemma skipSpace_app_CR (mid : string) :
  regexp.skipSpace (mid ++ CRs)
  = match regexp.skipSpace mid with
    | "" => ""
    | String c r => String c r ++ CRs
    end.
Proof.
  induction mid as [|c mid IH]; [reflexivity|].
  cbn [append regexp.skipSpace]. now destruct (regexp.isSpace c).
Qed.

Lemma field_app_CR (s g r : string) :
  regexp.field s = Some (g, r) ->
  regexp.field (s ++ CRs)
  = Some (g, match r with "" => "" | String c t => String c t ++ CRs end).
Proof.
  intros H. apply field_spec in H as [G [a [mid [A [-> ->]]]]].
  rewrite <- app_assoc. cbn [append].
  rewrite field_intro by trivial. now rewrite skipSpace_app_CR.
Qed.

Lemma field_nil : regexp.field "" = None.
Proof. reflexivity. Qed.

(** A task line is still one with a carriage return after it. *)
Lemma MatchString_app_CR (s : string) :
  regexp.MatchString s = true -> regexp.MatchString (s ++ CRs) = true.
Proof.
  rewrite MatchString_length. intros H.
  apply FindStringSubmatch_inv in H
    as (g1 & s1 & g2 & s2 & g3 & s3 & g4 & s4 & g5 & s5
        & F1 & F2 & F3 & F4 & F5 & N & _).
  unfold regexp.MatchString, regexp.FindStringSubmatch.
  rewrite (field_app_CR _ _ _ F1).
  destruct s1 as [|c1 t1]; [now rewrite field_nil in F2|].
  rewrite (field_app_CR _ _ _ F2).
  destruct s2 as [|c2 t2]; [now rewrite field_nil in F3|].
  rewrite (field_app_CR _ _ _ F3).
  destruct s3 as [|c3 t3]; [now rewrite field_nil in F4|].
  rewrite (field_app_CR _ _ _ F4).
  destruct s4 as [|c4 t4]; [now rewrite field_nil in F5|].
  rewrite (field_app_CR _ _ _ F5).
  destruct s5 as [|c5 t5]; [reflexivity|].
  rewrite hasByte_app, N. reflexivity.
Qed.

(** A line the second loop keeps is parsed into no entry. *)
Lemma kept_line_no_entry (updatedEntries : list CrontabEntry) (P : string) :
  keepLine updatedEntries P = true -> lineFields (bufio.dropCR P) = [].
Proof.
  rewrite keepLine_spec. unfold foreignLine. intros H.
  apply andb_true_iff in H as [H Hp]. apply andb_true_iff in H as [_ Hm].
  apply negb_true_iff in Hp. apply negb_true_iff in Hm.
  assert (Hp' : strings.HasPrefix (bufio.dropCR P) "# " = false).
  { destruct (strings.HasPrefix (bufio.dropCR P) "# ") eqn:E; [|reflexivity].
    destruct (dropCR_cases P) as [D|D]; [rewrite D in E; congruence|].
    rewrite D in Hp. now rewrite (HasPrefix_app_r _ CRs _ E) in Hp. }
  assert (Hm' : regexp.MatchString (bufio.dropCR P) = false).
  { destruct (regexp.MatchString (bufio.dropCR P)) eqn:E; [|reflexivity].
    destruct (dropCR_cases P) as [D|D]; [rewrite D in E; congruence|].
    rewrite D in Hm. now rewrite (MatchString_app_CR _ E) in Hm. }
  unfold lineFields, parseLine. rewrite Hp'.
  rewrite MatchString_length in Hm'. rewrite Hm'.
  repeat match goal with
         | |- context [if ?b then _ else _] => destruct b
         end; reflexivity.
Qed.

Lemma parseLines_fields (ls : list string) (id : Z) :
  map fieldsOf (parseLines id ls) = flat_map lineFields ls.
Proof.
  revert id; induction ls as [|l ls IH]; intros id; [reflexivity|].
  cbn [parseLines flat_map]. unfold lineFields at 1.
  rewrite (parseLine_setID id).
  destruct (parseLine 0 l) as [e|]; cbn [option_map]; [|apply IH].
  cbn [map]. now rewrite IH.
Qed.

End RoundTrip.

Section RoundTripText.

Lemma flat_map_nil {A B : Type} (f : A -> list B) (l : list A) :
  (forall x, In x l -> f x = []) -> flat_map f l = [].
Proof.
  induction l as [|x l IH]; intros H; [reflexivity|]. simpl.
  rewrite (H x) by now left. apply IH. intros y I. apply H. now right.
Qed.

Lemma emitted_fields (l : list CrontabEntry) :
  (forall e, In e l ->
             lineFields (bufio.dropCR (entryLine e)) = [fieldsOf e]) ->
  flat_map lineFields (map bufio.dropCR (emittedLines l)) = map fieldsOf l.
Proof.
  induction l as [|e l IH]; intros H; [reflexivity|]. simpl.
  rewrite (H e) by now left. simpl. f_equal. apply IH.
  intros y I. apply H. now right.
Qed.

(** Every entry of a parsed text is written as a line that is read back
    into the same values. *)
Lemma parsed_entries_read_back (output : string) (id : Z)
      (entry : CrontabEntry) :
  (forall L, In L (bufio.scanLines output) ->
             strings.HasPrefix L "# " = true ->
             strings.HasSuffix L CRs = false) ->
  In entry (parse id output) ->
  hasByte LF (entryLine entry) = false
  /\ bufio.fits (entryLine entry) = true
  /\ lineFields (bufio.dropCR (entryLine entry)) = [fieldsOf entry].
Proof.
  intros C I. rewrite parse_lines in I.
  apply parseLines_origin in I as [L [id0 [IL PL]]].
  destruct (scanLines_In _ _ IL) as [NL F].
  apply (entryLine_parsed L id0); auto.
Qed.

End RoundTripText.

(** C6.  As amended: for every store text in which no line that begins
    with "# " ends, once scanned, with a carriage return, parsing the text
    produced by reconciling the unmodified parsed entries against it gives
    entries with the same minute, hour, day of month, month, day of week,
    command and enabled values, in the same order. *)
Theorem C6_round_trip :
  forall (output : string),
    (forall L, In L (bufio.scanLines output) ->
               strings.HasPrefix L "# " = true ->
               strings.HasSuffix L CRs = false) ->
    forall id id' : Z,
      map fieldsOf (parse id' (reconcile (parse id output) output))
      = map fieldsOf (parse id output).
Proof.
  intros output C id id'.
  pose proof (fun e => parsed_entries_read_back output id e C) as HS.
  rewrite (parse_lines id'), parseLines_fields, reconcile_lines.
  rewrite scanLines_unlines.
  - rewrite map_app, flat_map_app.
    rewrite emitted_fields by (intros e I; now apply HS).
    rewrite flat_map_nil; [apply List.app_nil_r|].
    intros x I. apply in_map_iff in I as [l [<- I]].
    unfold preservedLines in I. apply filter_In in I as [_ I].
    now apply kept_line_no_entry in I.
  - intros l I. apply in_app_or in I as [I|I].
    + unfold emittedLines in I. apply in_map_iff in I as [e [<- I]].
      now apply HS.
    + unfold preservedLines in I. apply filter_In in I as [I _].
      now apply scanLines_In in I.
  - intros l I. apply in_app_or in I as [I|I].
    + unfold emittedLines in I. apply in_map_iff in I as [e [<- I]].
      now apply HS.
    + unfold preservedLines in I. apply filter_In in I as [I _].
      now apply scanLines_In in I.
Qed.

Lemma C6_round_trip_witness :
  map fieldsOf (parse 4 (reconcile (parse 1 spacedStore) spacedStore))
  = map fieldsOf (parse 1 spacedStore)
  /\ map fieldsOf (parse 1 spacedStore)
     = [("0", "3", "*", "*", "*", "/bin/backup.sh", false);
        ("*/5", "*", "*", "*", "*", "/usr/bin/foo  --all", true)].
Proof.
  split; [|vm_compute; reflexivity].
  apply C6_round_trip.
  intros L I _. vm_compute in I.
  destruct I as [<-|[<-|[<-|[]]]]; vm_compute; reflexivity.
Defined.

(** C6 as stated fails: a comment of five words followed by two carriage
    returns is parsed into a disabled entry with an empty command; its line
    is written back with one carriage return, which the scanner removes,
    and what is left is no task line. *)
Lemma C6_entry_lost : ~ round_trip crStore.
Proof.
  intros H. specialize (H 1%Z 1%Z). vm_compute in H. discriminate H.
Qed.

Example C6_scenario :
  map fieldsOf (parse 1 crStore) = [("m", "h", "dom", "mon", "dow", "", false)]
  /\ reconcile (parse 1 crStore) crStore = "# m h dom mon dow" ++ CRs ++ nl
  /\ parse 1 (reconcile (parse 1 crStore) crStore) = [].
Proof. repeat split; vm_compute; reflexivity. Qed.

(* ================================================================== *)
(** * The entries of the parser are well formed *)

Section ParsedEntries.

Variable output : string.

Hypothesis no_trailing_CR :
  forall L, In L (bufio.scanLines output) -> strings.HasSuffix L CRs = false.

Lemma parsed_wellFormed (id : Z) (entry : CrontabEntry) :
  In entry (parse id output) -> wellFormed entry = true.
Proof.
  intros I.
  destruct (parsed_entries_read_back output id entry) as [N [F _]]; trivial.
  { intros L IL _. now apply no_trailing_CR. }
  unfold wellFormed. rewrite N, F. cbn [negb andb].
  rewrite parse_lines in I.
  apply parseLines_origin in I as [L [id0 [IL PL]]].
  unfold parseLine in PL.
  destruct (strings.TrimSpace L =? ""); [discriminate|].
  destruct (strings.HasPrefix L "#").
  - destruct (strings.HasPrefix L "# "); [|discriminate].
    destruct (List.length _ =? 7)%nat; [|discriminate].
    injection PL as <-. cbn [Enabled RawLine entryOfMatches].
    now rewrite (no_trailing_CR L IL).
  - destruct (_ && _); [discriminate|].
    destruct (List.length _ =? 7)%nat eqn:M; [|discriminate].
    injection PL as <-.
    destruct (FindStringSubmatch_joins L _ eq_refl M)
      as (g1 & g2 & g3 & g4 & g5 & s5 & -> & F1 & F2 & F3 & F4 & F5 & _).
    cbn [Enabled Minute Hour DayOfMonth Month DayOfWeek entryOfMatches nth].
    now rewrite F1, F2, F3, F4, F5.
Qed.

(** Reconciling the unmodified entries of a store without stray carriage
    returns a second time, against the text of the first pass, gives that
    text again. *)
Corollary reconcile_parsed_again (id : Z) :
  reconcile (parse id output) (reconcile (parse id output) output)
  = reconcile (parse id output) output.
Proof.
  apply reconcile_again.
  - intros entry. apply parsed_wellFormed.
  - intros line I. unfold preservedLines in I.
    apply filter_In in I as [I _]. now apply no_trailing_CR.
Qed.

End ParsedEntries.

(* ================================================================== *)
(** * More on the parser *)

Section ParserFacts.

(** The two ways a line becomes an entry. *)
Lemma parseLine_inv (id : Z) (L : string) (entry : CrontabEntry) :
  parseLine id L = Some entry ->
  (strings.TrimSpace L =? "") = false
  /\ ((strings.HasPrefix L "#" = true
       /\ strings.HasPrefix L "# " = true
       /\ (List.length (regexp.FindStringSubmatch (drop 2 L)) =? 7)%nat = true
       /\ entry = entryOfMatches id (regexp.FindStringSubmatch (drop 2 L))
                                 L false)
      \/ (strings.HasPrefix L "#" = false
          /\ strings.Contains L "=" && negb (strings.HasPrefix L "*") = false
          /\ (List.length (regexp.FindStringSubmatch L) =? 7)%nat = true
          /\ entry = entryOfMatches id (regexp.FindStringSubmatch L) L true)).
Proof.
  unfold parseLine.
  destruct (strings.TrimSpace L =? ""); [discriminate|].
  destruct (strings.HasPrefix L "#").
  - destruct (strings.HasPrefix L "# "); [|discriminate].
    destruct (List.length _ =? 7)%nat; [|discriminate].
    intros H. injection H as <-. split; [reflexivity|]. left. now repeat split.
  - destruct (_ && _); [discriminate|].
    destruct (List.length _ =? 7)%nat; [|discriminate].
    intros H. injection H as <-. split; [reflexivity|]. right. now repeat split.
Qed.

Lemma parseLine_ID (id : Z) (L : string) (entry : CrontabEntry) :
  parseLine id L = Some entry -> ID entry = id.
Proof.
  intros H. apply parseLine_inv in H as [_ [(_ & _ & _ & ->)|(_ & _ & _ & ->)]];
    reflexivity.
Qed.

Lemma isTask_parseLine (id : Z) (L : string) :
  isTask L = match parseLine id L with Some _ => true | None => false end.
Proof.
  unfold isTask. rewrite (parseLine_setID id). now destruct (parseLine 0 L).
Qed.

Lemma parseLines_RawLine (ls : list string) (id : Z) :
  map RawLine (parseLines id ls) = filter isTask ls.
Proof.
  revert id; induction ls as [|l ls IH]; intros id; [reflexivity|].
  cbn [parseLines filter]. rewrite (isTask_parseLine id).
  destruct (parseLine id l) as [e|] eqn:E; [|apply IH].
  cbn [map]. now rewrite IH, (parseLine_RawLine _ _ _ E).
Qed.

Lemma parse_RawLine (id : Z) (output : string) :
  map RawLine (parse id output) = filter isTask (bufio.scanLines output).
Proof. rewrite parse_lines. apply parseLines_RawLine. Qed.

Lemma parseLines_ID (ls : list string) (id : Z) :
  map ID (parseLines id ls) = idsFrom id (List.length (parseLines id ls)).
Proof.
  revert id; induction ls as [|l ls IH]; intros id; [reflexivity|].
  cbn [parseLines]. destruct (parseLine id l) as [e|] eqn:E; [|apply IH].
  cbn [map List.length idsFrom]. now rewrite IH, (parseLine_ID _ _ _ E).
Qed.

Lemma parseStep_counter (ls : list string) (acc : list CrontabEntry) (id : Z) :
  snd (fold_left parseStep ls (acc, id))
  = incrIDs id (List.length (parseLines id ls)).
Proof.
  revert acc id; induction ls as [|l ls IH]; intros acc id; [reflexivity|].
  cbn [fold_left parseStep parseLines].
  destruct (parseLine id l) as [e|]; rewrite IH; reflexivity.
Qed.

Lemma parse_counter (id : Z) (output : string) :
  snd (parseCrontabOutput id output)
  = incrIDs id (List.length (parse id output)).
Proof.
  unfold parseCrontabOutput. now rewrite parseStep_counter, parse_lines.
Qed.

Lemma incrID_plain (id : Z) : (id < maxInt)%Z -> incrID id = (id + 1)%Z.
Proof.
  unfold incrID, maxInt. intros H.
  destruct (Z.gtb_spec (id + 1) 9223372036854775807); [lia | reflexivity].
Qed.

Lemma incrIDs_plain (n : nat) (id : Z) :
  (id + Z.of_nat n <= maxInt)%Z -> incrIDs id n = (id + Z.of_nat n)%Z.
Proof.
  revert id; induction n as [|n IH]; intros id H; cbn [incrIDs].
  - lia.
  - rewrite incrID_plain by lia. rewrite IH by lia. lia.
Qed.

Lemma idsFrom_plain (n : nat) (id : Z) :
  (id + Z.of_nat n <= maxInt)%Z ->
  idsFrom id n = map (fun k => (id + Z.of_nat k)%Z) (seq 0 n).
Proof.
  revert id; induction n as [|n IH]; intros id H; [reflexivity|].
  cbn [idsFrom seq map]. rewrite incrID_plain by lia. rewrite IH by lia.
  f_equal; [lia|]. rewrite <- seq_shift, map_map.
  apply map_ext. intros k. lia.
Qed.

Lemma idsFrom_bounds (n : nat) (id x : Z) :
  (id + Z.of_nat n <= maxInt)%Z ->
  In x (idsFrom id n) -> (id <= x < id + Z.of_nat n)%Z.
Proof.
  intros H I. rewrite idsFrom_plain in I by exact H.
  apply in_map_iff in I as [k [<- I]]. apply in_seq in I. lia.
Qed.

Lemma idsFrom_NoDup (n : nat) (id : Z) :
  (id + Z.of_nat n <= maxInt)%Z -> NoDup (idsFrom id n).
Proof.
  revert id; induction n as [|n IH]; intros id H; cbn [idsFrom];
    constructor.
  - intros I. rewrite incrID_plain in I by lia.
    apply idsFrom_bounds in I; lia.
  - rewrite incrID_plain by lia. apply IH. lia.
Qed.

End ParserFacts.

(** X1.  The parser numbers its entries from the counter it is started
    with, one by one: as long as the counter does not pass the largest
    [int], the identifiers are the counter, the counter plus one and so on,
    they are pairwise different, and the counter is left at the first
    value not given out. *)
Theorem parse_ids_consecutive :
  forall (id : Z) (output : string),
    (id + Z.of_nat (List.length (parse id output)) <= maxInt)%Z ->
    map ID (parse id output)
    = map (fun k => (id + Z.of_nat k)%Z)
          (seq 0 (List.length (parse id output)))
    /\ NoDup (map ID (parse id output))
    /\ snd (parseCrontabOutput id output)
       = (id + Z.of_nat (List.length (parse id output)))%Z.
Proof.
  intros id output H.
  rewrite parse_counter, incrIDs_plain by exact H.
  rewrite parse_lines in *. rewrite parseLines_ID.
  repeat split.
  - now apply idsFrom_plain.
  - now apply idsFrom_NoDup.
Qed.

Lemma parse_ids_consecutive_witness :
  map ID (parse 7 spacedStore) = [7%Z; 8%Z]
  /\ snd (parseCrontabOutput 7 spacedStore) = 9%Z.
Proof.
  assert (H : (7 + Z.of_nat (List.length (parse 7 spacedStore)) <= maxInt)%Z)
    by (vm_compute; discriminate).
  destruct (parse_ids_consecutive 7 spacedStore H) as [A [_ C]].
  split; [rewrite A | rewrite C]; vm_compute; reflexivity.
Defined.

(** X2.  The raw lines of the parsed entries are the lines of the text the
    parser turns into an entry, verbatim and in the order of the text; there
    are no more entries than lines. *)
Theorem parse_raw_lines :
  forall (id : Z) (output : string),
    map RawLine (parse id output) = filter isTask (bufio.scanLines output)
    /\ (List.length (parse id output)
        <= List.length (bufio.scanLines output))%nat.
Proof.
  intros id output. rewrite parse_lines.
  assert (E := parseLines_RawLine (bufio.scanLines output) id).
  split; [exact E|].
  rewrite <- (length_map RawLine), E. apply filter_length_le.
Qed.

Section EntryInvariants.

(** What the parser builds from a line. *)
Lemma parseLine_shape (id : Z) (L : string) (entry : CrontabEntry) :
  parseLine id L = Some entry ->
  RawLine entry = L
  /\ Comment entry = ""
  /\ isField (Minute entry) = true /\ isField (Hour entry) = true
  /\ isField (DayOfMonth entry) = true /\ isField (Month entry) = true
  /\ isField (DayOfWeek entry) = true
  /\ strings.TrimSpace (Command entry) = Command entry
  /\ hasByte LF (Command entry) = false
  /\ Enabled entry = negb (strings.HasPrefix L "#")
  /\ (Enabled entry = false -> strings.HasPrefix L "# " = true).
Proof.
  intros H.
  apply parseLine_inv in H as [_ [(Hh & Hs & M & ->)|(Hh & _ & M & ->)]];
    destruct (FindStringSubmatch_joins _ _ eq_refl M)
      as (g1 & g2 & g3 & g4 & g5 & s5 & -> & F1 & F2 & F3 & F4 & F5 & N & _);
    unfold entryOfMatches;
    cbn [nth RawLine Comment Minute Hour DayOfMonth Month DayOfWeek Command
             Enabled];
    rewrite Hh, TrimSpace_idem, (TrimSpace_hasByte _ _ N);
    repeat split; trivial; discriminate.
Qed.

(** The line written for an enabled parsed entry is a task line for the
    parser. *)
Lemma parsed_canonical_isTask (id : Z) (L : string) (entry : CrontabEntry) :
  parseLine id L = Some entry -> Enabled entry = true ->
  isTask (canonical entry) = true.
Proof.
  intros H E.
  apply parseLine_inv in H as [B [(_ & _ & _ & ->)|(Hh & Env & M & ->)]];
    [discriminate E|].
  destruct (FindStringSubmatch_joins _ _ eq_refl M)
    as (g1 & g2 & g3 & g4 & g5 & s5 & -> & F1 & F2 & F3 & F4 & F5 & N & J).
  unfold canonical, entryOfMatches.
  cbn [nth Minute Hour DayOfMonth Month DayOfWeek Command].
  pose proof (canonical_parsed L g1 g2 g3 g4 g5 s5 B Hh Env F1 F2 F3 F4 F5 N J)
    as P.
  unfold lineFields in P. unfold isTask.
  now destruct (parseLine 0 _).
Qed.

(** Every line written for a parsed entry is a task line for the parser. *)
Lemma parsed_entryLine_isTask (id : Z) (L : string) (entry : CrontabEntry) :
  parseLine id L = Some entry -> isTask (entryLine entry) = true.
Proof.
  intros H. unfold entryLine.
  destruct (Enabled entry) eqn:E; [now apply parsed_canonical_isTask with id L|].
  pose proof (parseLine_shape _ _ _ H) as (R & _ & _ & _ & _ & _ & _ & _ & _ & _ & P).
  specialize (P E). rewrite R.
  destruct (HasPrefix_hash _ (HasPrefix_hash_space _ P)) as [r ->].
  rewrite eqb_nil_false, (HasPrefix_hash_space _ P).
  rewrite (isTask_parseLine id), H. reflexivity.
Qed.

End EntryInvariants.

(** X3.  Every parsed entry has as raw line a line of the text, an empty
    comment, five schedule fields that are not empty and hold none of the
    five bytes the task pattern separates fields at (tab, newline, form
    feed, carriage return, space), and a command that [strings.TrimSpace]
    leaves as it is and that holds no newline; it is enabled exactly when
    its raw line does not begin with "#", and the raw line of a disabled
    entry begins with "# ".  Other white space, such as a vertical tab, can
    occur inside a field. *)
Theorem parse_entry_invariants :
  forall (id : Z) (output : string) (entry : CrontabEntry),
    In entry (parse id output) ->
    In (RawLine entry) (bufio.scanLines output)
    /\ Comment entry = ""
    /\ isField (Minute entry) = true /\ isField (Hour entry) = true
    /\ isField (DayOfMonth entry) = true /\ isField (Month entry) = true
    /\ isField (DayOfWeek entry) = true
    /\ strings.TrimSpace (Command entry) = Command entry
    /\ hasByte LF (Command entry) = false
    /\ Enabled entry = negb (strings.HasPrefix (RawLine entry) "#")
    /\ (Enabled entry = false ->
        strings.HasPrefix (RawLine entry) "# " = true).
Proof.
  intros id output entry I. rewrite parse_lines in I.
  apply parseLines_origin in I as [L [id0 [IL PL]]].
  pose proof (parseLine_shape _ _ _ PL) as (R & S).
  rewrite R. split; [exact IL | exact S].
Qed.

Lemma parse_entry_invariants_witness :
  In fooEntry (parse 1 sampleStore)
  /\ strings.TrimSpace (Command fooEntry) = Command fooEntry
  /\ Enabled fooEntry = negb (strings.HasPrefix (RawLine fooEntry) "#").
Proof.
  assert (I : In fooEntry (parse 1 sampleStore)) by (vm_compute; now left).
  split; [exact I|].
  pose proof (parse_entry_invariants 1 sampleStore fooEntry I)
    as (_ & _ & _ & _ & _ & _ & _ & T & _ & E & _).
  now split.
Defined.

(** A vertical tab is white space for [strings.TrimSpace] and none for
    the task pattern: it stays inside a schedule field. *)
Example field_with_vertical_tab :
  map Minute
      (parse 1 ("1" ++ String (ascii_of_N 11) "2 * * * * /bin/true" ++ nl))
  = ["1" ++ String (ascii_of_N 11) "2"].
Proof. vm_compute. reflexivity. Qed.

(** X4.  A line of the store that is no entry for the parser, and that the
    task pattern matches or that begins with "# ", is lost when the
    unmodified parsed entries are saved: it is not among the lines written.
    So are lost a task whose line holds "=" and does not begin with "*",
    and a comment that begins with "# ". *)
Theorem unparsed_lines_lost :
  forall (id : Z) (output L : string),
    In L (bufio.scanLines output) ->
    isTask L = false ->
    regexp.MatchString L = true \/ strings.HasPrefix L "# " = true ->
    reconcile (parse id output) output
    = unlines (writtenLines (parse id output) output)
    /\ ~ In L (writtenLines (parse id output) output).
Proof.
  intros id output L IL NT H. split; [apply reconcile_lines|].
  unfold writtenLines. intros I. apply in_app_or in I as [I|I].
  - unfold emittedLines in I. apply in_map_iff in I as [e [<- I]].
    rewrite parse_lines in I.
    apply parseLines_origin in I as [L' [id0 [_ PL]]].
    rewrite (parsed_entryLine_isTask _ _ _ PL) in NT. discriminate NT.
  - unfold preservedLines in I. apply filter_In in I as [_ K].
    destruct H as [H|H].
    + now rewrite keepLine_task in K.
    + now rewrite keepLine_hash_space in K.
Qed.

Lemma unparsed_lines_lost_witness :
  In curlLine (bufio.scanLines curlStore)
  /\ In "# nightly jobs" (bufio.scanLines curlStore)
  /\ ~ In curlLine (writtenLines (parse 1 curlStore) curlStore)
  /\ ~ In "# nightly jobs" (writtenLines (parse 1 curlStore) curlStore)
  /\ reconcile (parse 1 curlStore) curlStore
     = unlines [fooLine; "# 0 4 * * * /bin/rotate"].
Proof.
  assert (A : In curlLine (bufio.scanLines curlStore))
    by (vm_compute; tauto).
  assert (B : In "# nightly jobs" (bufio.scanLines curlStore))
    by (vm_compute; tauto).
  split; [exact A|]. split; [exact B|]. split; [|split].
  - apply (unparsed_lines_lost 1 curlStore curlLine A eq_refl).
    left. reflexivity.
  - apply (unparsed_lines_lost 1 curlStore "# nightly jobs" B eq_refl).
    right. reflexivity.
  - vm_compute. reflexivity.
Defined.

(* ================================================================== *)
(** * More on the reconciler *)

Section Replacement.

(** The reconciled text read again by the scanner. *)
Lemma scanLines_reconcile (updatedEntries : list CrontabEntry)
      (output : string) :
  (forall e, In e updatedEntries ->
             hasByte LF (entryLine e) = false
             /\ bufio.fits (entryLine e) = true) ->
  bufio.scanLines (reconcile updatedEntries output)
  = map bufio.dropCR (writtenLines updatedEntries output).
Proof.
  intros W. rewrite reconcile_lines. apply scanLines_unlines;
    intros l I; apply in_app_or in I as [I|I];
    try (unfold emittedLines in I; apply in_map_iff in I as [e [<- I]];
         now apply W);
    unfold preservedLines in I; apply filter_In in I as [I _];
    now apply scanLines_In in I.
Qed.

Lemma lineFields_isTask (l : string) : lineFields l = [] -> isTask l = false.
Proof.
  unfold lineFields, isTask. now destruct (parseLine 0 l).
Qed.

End Replacement.

(** X5.  A save replaces the whole set of tasks: when every submitted entry
    is written as one line that fits the scanner, every entry the parser
    finds in the reconciled text comes from the line written for a
    submitted entry, never from a line kept of the store; there are no more
    entries than were submitted. *)
Theorem reconciled_entries_are_submitted :
  forall (updatedEntries : list CrontabEntry) (output : string) (id : Z),
    (forall e, In e updatedEntries ->
               hasByte LF (entryLine e) = false
               /\ bufio.fits (entryLine e) = true) ->
    (forall entry,
        In entry (parse id (reconcile updatedEntries output)) ->
        exists e, In e updatedEntries
                  /\ RawLine entry = bufio.dropCR (entryLine e))
    /\ (List.length (parse id (reconcile updatedEntries output))
        <= List.length updatedEntries)%nat.
Proof.
  intros updatedEntries output id W.
  pose proof (scanLines_reconcile updatedEntries output W) as SL.
  assert (K : forall l, In l (preservedLines updatedEntries output) ->
                        isTask (bufio.dropCR l) = false).
  { intros l I. unfold preservedLines in I. apply filter_In in I as [_ I].
    now apply lineFields_isTask, kept_line_no_entry with updatedEntries. }
  split.
  - intros entry I. rewrite parse_lines, SL in I.
    apply parseLines_origin in I as [l [id0 [Il PL]]].
    rewrite (parseLine_RawLine _ _ _ PL).
    apply in_map_iff in Il as [x [<- Ix]]. unfold writtenLines in Ix.
    apply in_app_or in Ix as [Ix|Ix].
    + unfold emittedLines in Ix. apply in_map_iff in Ix as [e [<- Ie]].
      now exists e.
    + specialize (K x Ix). rewrite (isTask_parseLine id0), PL in K.
      discriminate K.
  - rewrite <- (length_map RawLine), parse_RawLine, SL.
    unfold writtenLines. rewrite map_app, filter_app, List.length_app.
    rewrite (filter_none isTask (map bufio.dropCR (preservedLines _ _))).
    + cbn [List.length]. rewrite Nat.add_0_r.
      etransitivity; [apply filter_length_le|].
      unfold emittedLines. now rewrite !length_map.
    + intros x I. apply in_map_iff in I as [l [<- I]]. now apply K.
Qed.

Lemma reconciled_entries_are_submitted_witness :
  parse 1 (reconcile [] curlStore) = []
  /\ (List.length (parse 1 (reconcile [editedFoo] curlStore)) <= 1)%nat.
Proof.
  split; [vm_compute; reflexivity|].
  refine (proj2 (reconciled_entries_are_submitted [editedFoo] curlStore 1 _)).
  intros e [<-|[]]. split; vm_compute; reflexivity.
Defined.

Section Disable.

Lemma entryLine_disabled_parsed (L : string) (id : Z) (entry : CrontabEntry) :
  parseLine id L = Some entry ->
  hasByte LF L = false ->
  strings.HasSuffix L CRs = false ->
  bufio.fits ("# " ++ L) = true ->
  hasByte LF (entryLine (setEnabled false entry)) = false
  /\ bufio.fits (entryLine (setEnabled false entry)) = true
  /\ lineFields (bufio.dropCR (entryLine (setEnabled false entry)))
     = [fieldsOf (setEnabled false entry)].
Proof.
  intros H NL C F.
  assert (F' : bufio.fits L = true).
  { apply fits_le with ("# " ++ L); [simpl; lia | exact F]. }
  pose proof H as H0.
  apply parseLine_inv in H as [B [(Hh & Hs & M & ->)|(Hh & Env & M & ->)]].
  - destruct (entryLine_parsed L id _ H0 NL F' (fun _ => C)) as (A1 & A2 & A3).
    unfold entryLine, fieldsOf, setEnabled, canonical in *.
    cbn [Enabled RawLine Minute Hour DayOfMonth Month DayOfWeek Command
                 entryOfMatches] in *.
    now repeat split.
  - unfold entryLine, setEnabled, entryOfMatches. cbn [Enabled RawLine].
    assert (NE : (L =? "") = false).
    { destruct L; [|reflexivity]. discriminate M. }
    rewrite NE, Hh. split; [|split].
    + simpl. exact NL.
    + exact F.
    + rewrite dropCR_commented, (dropCR_stable _ C).
      unfold lineFields, parseLine.
      assert (T : (strings.TrimSpace ("# " ++ L) =? "") = false).
      { pose proof (TrimSpace_hash ("# " ++ L) eq_refl) as P.
        destruct (strings.TrimSpace ("# " ++ L)); [discriminate P | reflexivity]. }
      rewrite T.
      change (strings.HasPrefix ("# " ++ L) "#") with true.
      change (strings.HasPrefix ("# " ++ L) "# ")
        with (strings.HasPrefix L "").
      unfold strings.HasPrefix at 1. rewrite prefix_nil.
      change (drop 2 ("# " ++ L)) with L. cbv zeta. rewrite M.
      reflexivity.
Qed.

End Disable.

(** X6.  Disabling every entry of a store and saving keeps their values:
    when no line of the store ends with a carriage return and every line
    still fits the scanner with "# " before it, the text reconciled from
    the parsed entries, all switched to disabled, is parsed into entries
    with the same schedule fields and commands, in the same order, all
    disabled. *)
Theorem disable_all_round_trip :
  forall (output : string) (id id' : Z),
    (forall L, In L (bufio.scanLines output) ->
               strings.HasSuffix L CRs = false
               /\ bufio.fits ("# " ++ L) = true) ->
    map fieldsOf
        (parse id' (reconcile (map (setEnabled false) (parse id output))
                              output))
    = map (fun e => fieldsOf (setEnabled false e)) (parse id output).
Proof.
  intros output id id' C.
  set (S := map (setEnabled false) (parse id output)).
  assert (HS : forall e, In e S ->
                         hasByte LF (entryLine e) = false
                         /\ bufio.fits (entryLine e) = true
                         /\ lineFields (bufio.dropCR (entryLine e))
                            = [fieldsOf e]).
  { intros e I. unfold S in I. apply in_map_iff in I as [e0 [<- I]].
    rewrite parse_lines in I.
    apply parseLines_origin in I as [L [id0 [IL PL]]].
    destruct (C L IL) as [C1 C2].
    apply (entryLine_disabled_parsed L id0); trivial.
    now apply scanLines_In in IL. }
  rewrite (parse_lines id'), parseLines_fields.
  rewrite scanLines_reconcile by (intros e I; split; now apply HS).
  unfold writtenLines. rewrite map_app, flat_map_app.
  rewrite emitted_fields by (intros e I; now apply HS).
  rewrite flat_map_nil.
  - rewrite List.app_nil_r. unfold S. now rewrite map_map.
  - intros x I. apply in_map_iff in I as [l [<- I]].
    unfold preservedLines in I. apply filter_In in I as [_ I].
    now apply kept_line_no_entry in I.
Qed.

Lemma disable_all_round_trip_witness :
  map fieldsOf
      (parse 3 (reconcile (map (setEnabled false) (parse 1 spacedStore))
                          spacedStore))
  = [("0", "3", "*", "*", "*", "/bin/backup.sh", false);
     ("*/5", "*", "*", "*", "*", "/usr/bin/foo  --all", false)].
Proof.
  rewrite disable_all_round_trip.
  - vm_compute. reflexivity.
  - intros L I. vm_compute in I.
    destruct I as [<-|[<-|[<-|[]]]]; split; vm_compute; reflexivity.
Defined.

Section RawLinesOnly.

Lemma preservedLines_ext (S1 S2 : list CrontabEntry) (output : string) :
  (forall l, In l (map RawLine S1) <-> In l (map RawLine S2)) ->
  preservedLines S1 output = preservedLines S2 output.
Proof.
  intros H. rewrite !preservedLines_spec.
  apply filter_ext. intros l. unfold foreignLine. f_equal. f_equal. f_equal.
  assert (M : forall S, isManagedComment S l = true <-> In l (map RawLine S)).
  { intros S. rewrite isManagedComment_true, in_map_iff.
    split; intros [e [A B]]; exists e; tauto. }
  destruct (isManagedComment S1 l) eqn:E1;
    destruct (isManagedComment S2 l) eqn:E2; trivial.
  - apply M, H, M in E1. congruence.
  - apply M, H, M in E2. congruence.
Qed.

End RawLinesOnly.

(** The reconciled text depends on the submitted entries through their
    raw lines, schedule fields, commands and enabled values only. *)
Lemma entryText_ext (e1 e2 : CrontabEntry) :
  (fieldsOf e1, RawLine e1) = (fieldsOf e2, RawLine e2) ->
  entryText e1 = entryText e2.
Proof.
  destruct e1, e2. unfold fieldsOf. cbn. intros H.
  injection H as -> -> -> -> -> -> -> ->. reflexivity.
Qed.

Lemma reconcile_ext (S1 S2 : list CrontabEntry) (output : string) :
  map (fun e => (fieldsOf e, RawLine e)) S1
  = map (fun e => (fieldsOf e, RawLine e)) S2 ->
  reconcile S1 output = reconcile S2 output.
Proof.
  intros H. rewrite !reconcile_shape. f_equal.
  - f_equal. revert S2 H.
    induction S1 as [|e1 S1 IH]; intros [|e2 S2] H; try discriminate H;
      [reflexivity|].
    cbn [map] in *.
    f_equal; [apply entryText_ext | apply IH]; congruence.
  - f_equal. apply preservedLines_ext. intros l.
    assert (E : map RawLine S1 = map RawLine S2).
    { apply (f_equal (map snd)) in H. now rewrite !map_map in H. }
    now rewrite E.
Qed.


(** X7.  What the second loop keeps of the store depends on the submitted
    entries through their raw lines only: two submitted lists with the same
    raw lines keep the same lines, and switching or editing entries without
    touching their raw lines changes nothing of what is kept. *)
Theorem preserved_depends_on_raw_lines :
  forall (S1 S2 : list CrontabEntry) (output : string),
    (forall l, In l (map RawLine S1) <-> In l (map RawLine S2)) ->
    preservedLines S1 output = preservedLines S2 output.
Proof. intros S1 S2 output. apply preservedLines_ext. Qed.

Lemma preserved_depends_on_raw_lines_witness :
  preservedLines [editedFoo] sampleStore
  = preservedLines [setEnabled false fooEntry] sampleStore.
Proof.
  apply preserved_depends_on_raw_lines. intros l. simpl. tauto.
Defined.

Section LongLines.

Lemma rawLines_app_unlines (ls : list string) (rest : string) :
  (forall l, In l ls -> hasByte LF l = false) ->
  bufio.rawLines (unlines ls ++ rest) = (ls ++ bufio.rawLines rest)%list.
Proof.
  induction ls as [|l ls IH]; intros H; [reflexivity|].
  unfold unlines in *. cbn [map concatAll]. rewrite <- !app_assoc.
  rewrite rawLines_line by (apply H; now left).
  cbn [List.app]. f_equal. apply IH. intros l' I. apply H. now right.
Qed.

(** The line a text begins with is at least as long as a beginning of the
    text that holds no newline. *)
Lemma rawLines_head (x y : string) :
  x <> "" -> hasByte LF x = false ->
  exists l ls, bufio.rawLines (x ++ y) = l :: ls
               /\ (String.length x <= String.length l)%nat.
Proof.
  induction x as [|c x IH]; intros NE H; [now elim NE|].
  cbn [hasByte] in H. apply orb_false_iff in H as [Hc Hx].
  cbn [append bufio.rawLines]. rewrite Hc.
  destruct x as [|d x].
  - cbn [append]. destruct (bufio.rawLines y) as [|l ls].
    + exists (String c ""), []. split; [reflexivity | simpl; lia].
    + exists (String c l), ls. split; [reflexivity | simpl; lia].
  - destruct (IH ltac:(discriminate) Hx) as [l [ls [E Len]]].
    rewrite E. exists (String c l), ls. split; [reflexivity|].
    simpl in *. lia.
Qed.

Lemma takeFitting_stop (ls r : list string) (l : string) :
  (forall x, In x ls -> bufio.fits x = true) -> bufio.fits l = false ->
  bufio.takeFitting (ls ++ l :: r) = ls.
Proof.
  intros H F. induction ls as [|x ls IH]; cbn [List.app bufio.takeFitting].
  - now rewrite F.
  - rewrite (H x) by now left. f_equal. apply IH. intros y I. apply H. now right.
Qed.

Lemma scanLines_long (ls : list string) (long rest : string) :
  (forall l, In l ls -> hasByte LF l = false /\ bufio.fits l = true) ->
  hasByte LF long = false -> bufio.fits long = false ->
  bufio.scanLines (unlines ls ++ long ++ rest)
  = bufio.scanLines (unlines ls).
Proof.
  intros H NL F.
  assert (NE : long <> "") by (intros ->; discriminate F).
  destruct (rawLines_head long rest NE NL) as [l [r [E Len]]].
  unfold bufio.scanLines.
  rewrite rawLines_app_unlines by (intros x I; now apply H).
  rewrite rawLines_unlines by (intros x I; now apply H).
  rewrite E, takeFitting_stop, takeFitting_all; trivial;
    try (intros x I; now apply H).
  destruct (bufio.fits l) eqn:Fl; [|reflexivity].
  rewrite (fits_le long l Len Fl) in F. discriminate F.
Qed.

End LongLines.

(** X8.  A line of 64 KiB or more stops the scanner, and the program does
    not look at the scanner's error: when such a line follows lines that
    fit, the parser returns the entries of the lines before it only, and
    the second loop keeps of the store what it keeps of the lines before it
    only; the long line and all that follows it are ignored. *)
Theorem long_line_cuts_store :
  forall (ls : list string) (long rest : string),
    (forall l, In l ls -> hasByte LF l = false /\ bufio.fits l = true) ->
    hasByte LF long = false ->
    (bufio.MaxScanTokenSize <= N.of_nat (String.length long))%N ->
    (forall id, parse id (unlines ls ++ long ++ rest) = parse id (unlines ls))
    /\ (forall updatedEntries,
           reconcile updatedEntries (unlines ls ++ long ++ rest)
           = reconcile updatedEntries (unlines ls)).
Proof.
  intros ls long rest H NL Len.
  assert (F : bufio.fits long = false).
  { unfold bufio.fits. now apply N.ltb_ge. }
  pose proof (scanLines_long ls long rest H NL F) as E. split.
  - intros id. now rewrite !parse_lines, E.
  - intros S. rewrite !reconcile_shape. unfold preservedLines. now rewrite E.
Qed.

Lemma long_line_cuts_store_witness :
  parse 1 (unlines [fooLine] ++ replicate (N.to_nat 65536) "x"
                   ++ nl ++ unlines ["0 4 * * * /bin/rotate"])
  = parse 1 (unlines [fooLine]).
Proof.
  apply (long_line_cuts_store [fooLine] (replicate (N.to_nat 65536) "x")).
  - intros l [<-|[]]. split; vm_compute; reflexivity.
  - vm_compute. reflexivity.
  - vm_compute. discriminate.
Defined.

(* ================================================================== *)
(** * The handlers *)

Section Handlers.

Lemma Contains_app (a b c : string) : strings.Contains (a ++ b ++ c) b = true.
Proof.
  induction a as [|x a IH].
  - cbn [append]. destruct (b ++ c) eqn:E; cbn [strings.Contains];
      rewrite <- E, prefix_app; reflexivity.
  - cbn [append strings.Contains]. rewrite IH. apply orb_true_r.
Qed.

Lemma Contains_app_r (a b : string) : strings.Contains (a ++ b) b = true.
Proof. rewrite <- (app_nil_r b) at 1. apply Contains_app. Qed.

(** The text reconciled against an empty listing is what the first loop
    wrote. *)
Lemma reconcile_empty (updatedEntries : list CrontabEntry) :
  reconcile updatedEntries "" = unlines (emittedLines updatedEntries).
Proof.
  rewrite reconcile_lines. unfold preservedLines. cbn [bufio.scanLines].
  cbn [bufio.rawLines bufio.takeFitting map filter].
  now rewrite List.app_nil_r.
Qed.

(** The values read back after the unmodified entries were reconciled. *)
Lemma reconcile_parse_fields (output : string) (id id' : Z) :
  (forall L, In L (bufio.scanLines output) ->
             strings.HasPrefix L "# " = true ->
             strings.HasSuffix L CRs = false) ->
  map fieldsOf (parse id' (reconcile (parse id output) output))
  = map fieldsOf (parse id output).
Proof.
  intros C.
  pose proof (fun e => parsed_entries_read_back output id e C) as HS.
  rewrite (parse_lines id'), parseLines_fields.
  rewrite scanLines_reconcile by (intros e I; split; now apply HS).
  unfold writtenLines. rewrite map_app, flat_map_app.
  rewrite emitted_fields by (intros e I; now apply HS).
  rewrite flat_map_nil; [apply List.app_nil_r|].
  intros x I. apply in_map_iff in I as [l [<- I]].
  unfold preservedLines in I. apply filter_In in I as [_ I].
  now apply kept_line_no_entry in I.
Qed.

Lemma getCrontab_ok (g : Globals) (output : string) :
  getCrontab g output None
  = (Entries (parse (nextEntryID g) output),
     {| currentCrontabEntries := parse (nextEntryID g) output;
        nextEntryID := snd (parseCrontabOutput (nextEntryID g) output) |}).
Proof.
  unfold getCrontab, parse.
  now destruct (parseCrontabOutput (nextEntryID g) output).
Qed.

End Handlers.

(** X9.  [updateCrontab] runs the installation at most in one way: only
    when the body was decoded, the listing succeeded or reported that
    there is no crontab, and the temporary file was created and written;
    and then on that file, after the text reconciled from the decoded
    entries and the listing, and nothing else, was written to it and it was
    closed. *)
Theorem install_only_reconciled :
  forall (g : Globals) (decoded : string + list CrontabEntry)
         (world : Outside) (name : string),
    In (RunInstall name) (snd (updateCrontab g decoded world)) ->
    exists updatedEntries output rest,
      decoded = inr updatedEntries
      /\ listForMerge (fst (mergeList world)) (snd (mergeList world))
         = inr output
      /\ tempFile world = inr name
      /\ tempWrite world = None
      /\ snd (updateCrontab g decoded world)
         = ([RunList; CreateTemp;
             WriteTemp name (reconcile updatedEntries output);
             CloseTemp name; RunInstall name] ++ rest)%list
      /\ ~ In (RunInstall name) rest
      /\ (forall f c, ~ In (WriteTemp f c) rest).
Proof.
  intros g decoded world name. unfold updateCrontab.
  destruct decoded as [err|S]; [intros []|].
  destruct (listForMerge _ _) as [r|output];
    [intros [H|[]]; discriminate H|].
  destruct (tempFile world) as [err|n];
    [intros [H|[H|[]]]; discriminate H|].
  destruct (tempWrite world) as [err|];
    [intros [H|[H|[H|[H|[]]]]]; discriminate H|].
  destruct (snd (install world)) as [err|].
  - cbn [snd]. intros I.
    assert (n = name) as ->.
    { repeat (destruct I as [I|I]; try discriminate I; try now injection I).
      destruct I. }
    exists S, output, [RemoveTemp name]. repeat split.
    + intros [H|[]]. discriminate H.
    + intros f c [H|[]]. discriminate H.
  - destruct (getCrontab _ _ _) as [resp g']. cbn [snd]. intros I.
    assert (n = name) as ->.
    { repeat (destruct I as [I|I]; try discriminate I; try now injection I).
      destruct I. }
    exists S, output, [RunList; RemoveTemp name]. repeat split.
    + intros [H|[H|[]]]; discriminate H.
    + intros f c [H|[H|[]]]; discriminate H.
Qed.

Lemma install_only_reconciled_witness :
  In (RunInstall "/tmp/crontab-editor-1")
     (snd (updateCrontab initial (inr [editedFoo]) calmOutside))
  /\ In (WriteTemp "/tmp/crontab-editor-1"
                   (unlines ["*/5 * * * * /usr/bin/bar"; "FOO=bar";
                             "#some note"; ""]))
        (snd (updateCrontab initial (inr [editedFoo]) calmOutside)).
Proof.
  assert (I : In (RunInstall "/tmp/crontab-editor-1")
                 (snd (updateCrontab initial (inr [editedFoo]) calmOutside)))
    by (vm_compute; tauto).
  split; [exact I|].
  destruct (install_only_reconciled _ _ _ _ I)
    as (S & output & rest & D & L & _ & _ & T & _).
  injection D as <-. injection L as <-. rewrite T.
  right. right. left. vm_compute. reflexivity.
Defined.

(** X10.  Once [updateCrontab] has created the temporary file, removing it
    is the last thing it does, on every path, and it removes it once. *)
Theorem temp_file_removed_last :
  forall (g : Globals) (decoded : string + list CrontabEntry)
         (world : Outside) (name : string),
    tempFile world = inr name ->
    In CreateTemp (snd (updateCrontab g decoded world)) ->
    exists before,
      snd (updateCrontab g decoded world)
      = (before ++ [RemoveTemp name])%list
      /\ ~ In (RemoveTemp name) before.
Proof.
  intros g decoded world name T. unfold updateCrontab. rewrite T.
  destruct decoded as [err|S]; [intros []|].
  destruct (listForMerge _ _) as [r|output];
    [intros [H|[]]; discriminate H|].
  destruct (tempWrite world) as [err|]; [|destruct (snd (install world))];
    [| |destruct (getCrontab _ _ _) as [resp g']]; cbn [snd]; intros _.
  - exists [RunList; CreateTemp; WriteTemp name (reconcile S output)].
    split; [reflexivity|].
    intros I; repeat (destruct I as [I|I]; try discriminate I); destruct I.
  - exists [RunList; CreateTemp; WriteTemp name (reconcile S output);
            CloseTemp name; RunInstall name].
    split; [reflexivity|].
    intros I; repeat (destruct I as [I|I]; try discriminate I); destruct I.
  - exists [RunList; CreateTemp; WriteTemp name (reconcile S output);
            CloseTemp name; RunInstall name; RunList].
    split; [reflexivity|].
    intros I; repeat (destruct I as [I|I]; try discriminate I); destruct I.
Qed.

Lemma temp_file_removed_last_witness :
  tempFile refusingOutside = inr "/tmp/crontab-editor-2"
  /\ exists before,
      snd (updateCrontab initial (inr [editedFoo]) refusingOutside)
      = (before ++ [RemoveTemp "/tmp/crontab-editor-2"])%list
      /\ ~ In (RemoveTemp "/tmp/crontab-editor-2") before.
Proof.
  split; [reflexivity|].
  apply (temp_file_removed_last initial (inr [editedFoo]) refusingOutside
           "/tmp/crontab-editor-2" eq_refl).
  vm_compute. tauto.
Defined.

(** X11.  When the installation fails, [updateCrontab] answers with status
    500 and a message that holds the text of the error and everything the
    command printed, leaves the process-wide state as it was and does not
    list the store again. *)
Theorem install_failure_reported :
  forall (g : Globals) (updatedEntries : list CrontabEntry)
         (world : Outside) (output name : string) (err : CmdError),
    listForMerge (fst (mergeList world)) (snd (mergeList world)) = inr output ->
    tempFile world = inr name ->
    tempWrite world = None ->
    snd (install world) = Some err ->
    exists message,
      updateCrontab g (inr updatedEntries) world
      = (HttpError 500 message, g,
         [RunList; CreateTemp;
          WriteTemp name (reconcile updatedEntries output);
          CloseTemp name; RunInstall name; RemoveTemp name])
      /\ strings.Contains message (fst (install world)) = true
      /\ strings.Contains message (errorText err) = true.
Proof.
  intros g S world output name err L T W I.
  unfold updateCrontab. rewrite L, T, W, I.
  eexists. split; [reflexivity|]. split.
  - rewrite !app_assoc. apply Contains_app_r.
  - apply Contains_app.
Qed.

Lemma install_failure_reported_witness :
  exists message,
    fst (fst (updateCrontab initial (inr [editedFoo]) refusingOutside))
    = HttpError 500 message
    /\ strings.Contains message "errors in crontab file, can't install."
       = true.
Proof.
  destruct (install_failure_reported initial [editedFoo] refusingOutside
              sampleStore "/tmp/crontab-editor-2"
              (ExitError "exit status 1" "")
              eq_refl eq_refl eq_refl eq_refl) as [message [E [C _]]].
  exists message. rewrite E. split; [reflexivity | exact C].
Defined.

Section Dispatch.

Lemma handle_GET (g : Globals) (decoded : string + list CrontabEntry)
      (world : Outside) :
  handleCrontabAPI g "GET" decoded world
  = let (response, g') :=
        getCrontab g (fst (fetchList world)) (snd (fetchList world)) in
    (response, g', [RunList]).
Proof. reflexivity. Qed.

Lemma handle_POST (g : Globals) (decoded : string + list CrontabEntry)
      (world : Outside) :
  handleCrontabAPI g "POST" decoded world = updateCrontab g decoded world.
Proof. reflexivity. Qed.

Lemma listForMerge_error (output : string) (err : option CmdError)
      (response : Response) :
  listForMerge output err = inl response ->
  exists message, response = HttpError 500 message.
Proof.
  unfold listForMerge. destruct err as [[ps stderr|msg]|]; [| |discriminate].
  - destruct (strings.Contains stderr "no crontab for"); [discriminate|].
    intros H. injection H as <-. now eexists.
  - intros H. injection H as <-. now eexists.
Qed.

End Dispatch.

(** X12.  Fetching a store and saving what was fetched gives the same
    values back.  The body of the POST is taken as it is decoded: its
    entries carry, one by one, the raw lines, schedule fields, commands and
    enabled values of the entries the GET returned, whatever their
    identifiers and comments.  When the store holds no line that begins
    with "# " and ends with a carriage return, every step of the save
    succeeds and the store lists afterwards what was installed, the text
    installed is the one reconciled from the entries the GET returned, and
    the POST answers with entries that have the schedule fields, commands
    and enabled values of those entries, in the same order, and keeps them
    as the last known entries. *)
Theorem fetch_then_save_unmodified :
  forall (g : Globals) (T name : string)
         (body : string + list CrontabEntry) (sent : list CrontabEntry)
         (w1 w2 : Outside),
    fetchList w1 = (T, None) ->
    map (fun e => (fieldsOf e, RawLine e)) sent
    = map (fun e => (fieldsOf e, RawLine e)) (parse (nextEntryID g) T) ->
    mergeList w2 = (T, None) ->
    tempFile w2 = inr name ->
    tempWrite w2 = None ->
    snd (install w2) = None ->
    confirmList w2 = (reconcile sent T, None) ->
    (forall L, In L (bufio.scanLines T) ->
               strings.HasPrefix L "# " = true ->
               strings.HasSuffix L CRs = false) ->
    exists g1 g2 saved,
      handleCrontabAPI g "GET" body w1
      = (Entries (parse (nextEntryID g) T), g1, [RunList])
      /\ handleCrontabAPI g1 "POST" (inr sent) w2
         = (Entries saved, g2,
            [RunList; CreateTemp;
             WriteTemp name (reconcile (parse (nextEntryID g) T) T);
             CloseTemp name; RunInstall name; RunList; RemoveTemp name])
      /\ map fieldsOf saved = map fieldsOf (parse (nextEntryID g) T)
      /\ currentCrontabEntries g2 = saved.
Proof.
  intros g T name body sent w1 w2 F A M Tf W I Cf C.
  assert (R : reconcile sent T = reconcile (parse (nextEntryID g) T) T)
    by now apply reconcile_ext.
  rewrite handle_GET, F. cbn [fst snd]. rewrite getCrontab_ok.
  eexists. eexists. eexists. split; [reflexivity|].
  rewrite handle_POST. unfold updateCrontab.
  rewrite M, Tf, W, I, Cf. cbn [fst snd listForMerge].
  rewrite getCrontab_ok. cbn [nextEntryID]. rewrite R.
  split; [reflexivity|]. split; [|reflexivity].
  now apply reconcile_parse_fields.
Qed.

Lemma fetch_then_save_unmodified_witness :
  exists g1 g2 saved,
    handleCrontabAPI initial "GET" (inl "")
                     {| fetchList := (spacedStore, None);
                        mergeList := ("", None); tempFile := inl "";
                        tempWrite := None; install := ("", None);
                        confirmList := ("", None) |}
    = (Entries (parse 1 spacedStore), g1, [RunList])
    /\ fst (fst (handleCrontabAPI g1 "POST"
                   (inr (map (setID 0) (parse 1 spacedStore)))
                   {| fetchList := ("", None);
                      mergeList := (spacedStore, None);
                      tempFile := inr "/tmp/crontab-editor-3";
                      tempWrite := None; install := ("", None);
                      confirmList :=
                        (reconcile (map (setID 0) (parse 1 spacedStore))
                                   spacedStore, None) |}))
       = Entries saved
    /\ map fieldsOf saved = map fieldsOf (parse 1 spacedStore)
    /\ currentCrontabEntries g2 = saved.
Proof.
  destruct (fetch_then_save_unmodified
              initial spacedStore "/tmp/crontab-editor-3" (inl "")
              (map (setID 0) (parse 1 spacedStore))
              {| fetchList := (spacedStore, None);
                 mergeList := ("", None); tempFile := inl "";
                 tempWrite := None; install := ("", None);
                 confirmList := ("", None) |}
              {| fetchList := ("", None);
                 mergeList := (spacedStore, None);
                 tempFile := inr "/tmp/crontab-editor-3";
                 tempWrite := None; install := ("", None);
                 confirmList :=
                   (reconcile (map (setID 0) (parse 1 spacedStore))
                              spacedStore, None) |}
              eq_refl eq_refl eq_refl eq_refl eq_refl eq_refl eq_refl)
    as (g1 & g2 & saved & A & B & C & D).
  - intros L I _. vm_compute in I.
    destruct I as [<-|[<-|[<-|[]]]]; vm_compute; reflexivity.
  - exists g1, g2, saved. split; [exact A|]. split; [|split; trivial].
    change (nextEntryID initial) with 1%Z in B. now rewrite B.
Defined.

(** X13.  Only a POST changes anything outside the process: a request with
    any other method runs at most the listing, and a request whose method
    is neither GET nor POST is answered with status 405 and does nothing
    at all. *)
Theorem only_post_changes_outside :
  forall (g : Globals) (method : string)
         (decoded : string + list CrontabEntry) (world : Outside),
    method <> "POST" ->
    (forall a, In a (snd (handleCrontabAPI g method decoded world)) ->
               changesOutside a = false)
    /\ (method <> "GET" ->
        handleCrontabAPI g method decoded world
        = (HttpError 405 "Method not allowed", g, [])).
Proof.
  intros g method decoded world NP. unfold handleCrontabAPI.
  destruct (String.eqb_spec method "GET") as [->|NG].
  - split; [|intros H; now elim H].
    destruct (getCrontab _ _ _) as [r g']. cbn [snd].
    intros a [<-|[]]. reflexivity.
  - destruct (String.eqb_spec method "POST") as [->|_]; [now elim NP|].
    split; [intros a [] | reflexivity].
Qed.

Lemma only_post_changes_outside_witness :
  handleCrontabAPI initial "DELETE" (inr []) calmOutside
  = (HttpError 405 "Method not allowed", initial, []).
Proof.
  apply (only_post_changes_outside initial "DELETE" (inr []) calmOutside);
    discriminate.
Defined.

(** X14.  A save that does not get as far as a successful installation
    fails and leaves the process-wide state alone: when the body is not
    decoded, the listing fails, the temporary file is not created or not
    written, or the installation fails, [updateCrontab] answers with status
    400 or 500, and the counter of identifiers and the last known entries
    are what they were. *)
Theorem failed_save_keeps_state :
  forall (g : Globals) (decoded : string + list CrontabEntry)
         (world : Outside),
    (forall name,
        ~ In (RunInstall name) (snd (updateCrontab g decoded world)))
    \/ snd (install world) <> None ->
    snd (fst (updateCrontab g decoded world)) = g
    /\ exists code message,
        fst (fst (updateCrontab g decoded world)) = HttpError code message
        /\ (code = 400%N \/ code = 500%N).
Proof.
  intros g decoded world H. unfold updateCrontab in *.
  destruct decoded as [err|S];
    [split; [reflexivity | eexists; eexists; split; [reflexivity | now left]]|].
  destruct (listForMerge _ _) as [r|output] eqn:L.
  { apply listForMerge_error in L as [m ->].
    split; [reflexivity | eexists; eexists; split; [reflexivity | now right]]. }
  destruct (tempFile world) as [err|n];
    [split; [reflexivity | eexists; eexists; split; [reflexivity | now right]]|].
  destruct (tempWrite world) as [err|];
    [split; [reflexivity | eexists; eexists; split; [reflexivity | now right]]|].
  destruct (snd (install world)) as [err|];
    [split; [reflexivity | eexists; eexists; split; [reflexivity | now right]]|].
  exfalso. destruct H as [H|H]; [|now apply H].
  destruct (getCrontab _ _ _) as [resp g']. cbn [snd] in H.
  apply (H n). right. right. right. right. now left.
Qed.

Lemma failed_save_keeps_state_witness :
  snd (fst (updateCrontab initial (inr [editedFoo]) refusingOutside))
  = initial.
Proof.
  apply (failed_save_keeps_state initial (inr [editedFoo]) refusingOutside).
  right. discriminate.
Defined.

(** X15.  Identifiers do not identify an entry across requests: a second
    successful fetch of the same store returns the same raw lines and
    values under new identifiers, none of which was used by the first
    fetch as long as the counter does not pass the largest [int], and each
    fetch keeps its own entries as the last known ones. *)
Theorem refetch_renumbers :
  forall (g : Globals) (output : string),
    let first := parse (nextEntryID g) output in
    let g1 := snd (getCrontab g output None) in
    let second := parse (nextEntryID g1) output in
    getCrontab g output None
    = (Entries first,
       {| currentCrontabEntries := first;
          nextEntryID := snd (parseCrontabOutput (nextEntryID g) output) |})
    /\ fst (getCrontab g1 output None) = Entries second
    /\ currentCrontabEntries (snd (getCrontab g1 output None)) = second
    /\ map RawLine second = map RawLine first
    /\ map fieldsOf second = map fieldsOf first
    /\ ((nextEntryID g + 2 * Z.of_nat (List.length first) <= maxInt)%Z ->
        forall x, In x (map ID first) -> ~ In x (map ID second)).
Proof.
  intros g output first g1 second.
  assert (G : getCrontab g output None
              = (Entries first,
                 {| currentCrontabEntries := first;
                    nextEntryID :=
                      snd (parseCrontabOutput (nextEntryID g) output) |}))
    by apply getCrontab_ok.
  assert (N1 : nextEntryID g1
               = snd (parseCrontabOutput (nextEntryID g) output)).
  { unfold g1. now rewrite G. }
  assert (R : map RawLine second = map RawLine first).
  { unfold second, first.
    now rewrite !parse_RawLine. }
  split; [exact G|]. rewrite (getCrontab_ok g1). cbn [fst snd].
  split; [reflexivity|]. split; [reflexivity|]. split; [exact R|]. split.
  - unfold second, first. now rewrite !parse_lines, !parseLines_fields.
  - intros B x I1 I2.
    assert (Len : List.length second = List.length first).
    { now rewrite <- (length_map RawLine second), R, length_map. }
    unfold first, second in *. rewrite N1, parse_counter in *.
    rewrite incrIDs_plain in * by lia.
    rewrite parse_lines, parseLines_ID, <- parse_lines in I1, I2.
    rewrite Len in I2.
    apply idsFrom_bounds in I1; [|lia].
    apply idsFrom_bounds in I2; [|lia]. lia.
Qed.

Lemma refetch_renumbers_witness :
  map ID (parse 1 spacedStore) = [1%Z; 2%Z]
  /\ map ID (parse (nextEntryID (snd (getCrontab initial spacedStore None)))
                   spacedStore) = [3%Z; 4%Z]
  /\ forall x, In x (map ID (parse 1 spacedStore)) ->
               ~ In x (map ID (parse (nextEntryID
                                        (snd (getCrontab initial spacedStore
                                                         None)))
                                     spacedStore)).
Proof.
  split; [vm_compute; reflexivity|]. split; [vm_compute; reflexivity|].
  apply (refetch_renumbers initial spacedStore).
  vm_compute. discriminate.
Defined.

(** X16.  The first save on a store that has no crontab installs the lines
    of the submitted entries and nothing else: when the listing fails with
    "no crontab for" on its standard error and nothing on its standard
    output, the text written to the temporary file is the lines the first
    loop writes, each with its newline. *)
Theorem first_save_writes_submitted :
  forall (g : Globals) (updatedEntries : list CrontabEntry)
         (world : Outside) (processState stderr name : string),
    mergeList world = ("", Some (ExitError processState stderr)) ->
    strings.Contains stderr "no crontab for" = true ->
    tempFile world = inr name ->
    In (WriteTemp name (unlines (emittedLines updatedEntries)))
       (snd (updateCrontab g (inr updatedEntries) world))
    /\ forall f c,
        In (WriteTemp f c) (snd (updateCrontab g (inr updatedEntries) world)) ->
        f = name /\ c = unlines (emittedLines updatedEntries).
Proof.
  intros g S world ps stderr name M C T.
  unfold updateCrontab. rewrite M, T. cbn [fst snd listForMerge].
  rewrite C, reconcile_empty.
  destruct (tempWrite world) as [err|];
    [|destruct (snd (install world)) as [ierr|]];
    [| |destruct (getCrontab _ _ _) as [resp g']]; cbn [snd];
    (split; [right; right; now left|]);
    intros f c I;
    repeat (destruct I as [I|I]; try discriminate I;
            try (injection I as <- <-; now split));
    destruct I.
Qed.

Lemma first_save_writes_submitted_witness :
  In (WriteTemp "/tmp/crontab-editor-4"
                (unlines ["0 3 * * * /bin/backup.sh"]))
     (snd (updateCrontab initial (inr [backupEntry]) bareOutside)).
Proof.
  exact (proj1 (first_save_writes_submitted initial [backupEntry] bareOutside
                  "exit status 1" "no crontab for root"
                  "/tmp/crontab-editor-4" eq_refl eq_refl eq_refl)).
Defined.

(* ================================================================== *)
(** * Enabling, relabelling, line endings *)

Section Enable.

Lemma hasByte_drop (c : ascii) (n : nat) (s : string) :
  hasByte c s = false -> hasByte c (drop n s) = false.
Proof.
  revert s; induction n as [|n IH]; intros [|d s] H; trivial.
  cbn [drop]. apply IH. cbn [hasByte] in H.
  now apply orb_false_iff in H as [_ H].
Qed.

Lemma entryLine_enabled_parsed (L : string) (id : Z) (entry : CrontabEntry) :
  parseLine id L = Some entry ->
  hasByte LF L = false ->
  bufio.fits L = true ->
  (strings.HasPrefix L "# " = true ->
   isTask (drop 2 L) = true /\ strings.HasPrefix (drop 2 L) "#" = false) ->
  hasByte LF (entryLine (setEnabled true entry)) = false
  /\ bufio.fits (entryLine (setEnabled true entry)) = true
  /\ lineFields (bufio.dropCR (entryLine (setEnabled true entry)))
     = [fieldsOf (setEnabled true entry)].
Proof.
  intros H NL F C.
  assert (Q : forall X ms,
             (strings.TrimSpace X =? "") = false ->
             strings.HasPrefix X "#" = false ->
             strings.Contains X "=" && negb (strings.HasPrefix X "*") = false ->
             regexp.FindStringSubmatch X = ms ->
             (List.length ms =? 7)%nat = true ->
             (String.length X <= String.length L)%nat ->
             hasByte LF X = false ->
             forall raw b,
               let e := setEnabled true (entryOfMatches id ms raw b) in
               hasByte LF (entryLine e) = false
               /\ bufio.fits (entryLine e) = true
               /\ lineFields (bufio.dropCR (entryLine e)) = [fieldsOf e]).
  { intros X ms B Hh Env E M Len NX raw b.
    destruct (FindStringSubmatch_joins X ms E M)
      as (g1 & g2 & g3 & g4 & g5 & s5 & -> & F1 & F2 & F3 & F4 & F5 & N & J).
    unfold entryLine, canonical, fieldsOf, setEnabled, entryOfMatches.
    cbn [nth Minute Hour DayOfMonth Month DayOfWeek Command Enabled].
    split; [|split].
    - now apply (joined_hasByte LF _ _ _ eq_refl J).
    - apply fits_le with L; [|exact F].
      pose proof (joined_length _ _ _ J). lia.
    - rewrite dropCR_joined, dropCR_TrimSpace.
      now apply canonical_parsed with X. }
  pose proof H as H0.
  apply parseLine_inv in H as [B [(Hh & Hs & M & ->)|(Hh & Env & M & ->)]].
  - destruct (C Hs) as [T NH].
    unfold isTask in T. destruct (parseLine 0 (drop 2 L)) as [e0|] eqn:P0;
      [|discriminate T].
    apply parseLine_inv in P0
      as [B0 [(Hh0 & _)|(_ & Env0 & _ & _)]]; [congruence|].
    apply (Q (drop 2 L) _ B0 NH Env0 eq_refl M).
    + rewrite length_drop. lia.
    + now apply hasByte_drop.
  - apply (Q L _ B Hh Env eq_refl M); [lia | exact NL].
Qed.

End Enable.

(** X17.  Enabling every entry of a store and saving keeps their values,
    provided that what follows "# " in the line of each disabled entry is
    a line the parser itself takes for an enabled task: the text reconciled
    from the parsed entries, all switched to enabled, is then parsed into
    entries with the same schedule fields and commands, in the same order,
    all enabled. *)
Theorem enable_all_round_trip :
  forall (output : string) (id id' : Z),
    (forall L, In L (bufio.scanLines output) ->
               strings.HasPrefix L "# " = true ->
               isTask L = true ->
               isTask (drop 2 L) = true
               /\ strings.HasPrefix (drop 2 L) "#" = false) ->
    map fieldsOf
        (parse id' (reconcile (map (setEnabled true) (parse id output))
                              output))
    = map (fun e => fieldsOf (setEnabled true e)) (parse id output).
Proof.
  intros output id id' C.
  set (S := map (setEnabled true) (parse id output)).
  assert (HS : forall e, In e S ->
                         hasByte LF (entryLine e) = false
                         /\ bufio.fits (entryLine e) = true
                         /\ lineFields (bufio.dropCR (entryLine e))
                            = [fieldsOf e]).
  { intros e I. unfold S in I. apply in_map_iff in I as [e0 [<- I]].
    rewrite parse_lines in I.
    apply parseLines_origin in I as [L [id0 [IL PL]]].
    destruct (scanLines_In _ _ IL) as [NL F].
    apply (entryLine_enabled_parsed L id0); trivial.
    intros P. apply C; trivial.
    now rewrite (isTask_parseLine id0), PL. }
  rewrite (parse_lines id'), parseLines_fields.
  rewrite scanLines_reconcile by (intros e I; split; now apply HS).
  unfold writtenLines. rewrite map_app, flat_map_app.
  rewrite emitted_fields by (intros e I; now apply HS).
  rewrite flat_map_nil.
  - rewrite List.app_nil_r. unfold S. now rewrite map_map.
  - intros x I. apply in_map_iff in I as [l [<- I]].
    unfold preservedLines in I. apply filter_In in I as [_ I].
    now apply kept_line_no_entry in I.
Qed.

Lemma enable_all_round_trip_witness :
  map fieldsOf
      (parse 3 (reconcile (map (setEnabled true) (parse 1 spacedStore))
                          spacedStore))
  = [("0", "3", "*", "*", "*", "/bin/backup.sh", true);
     ("*/5", "*", "*", "*", "*", "/usr/bin/foo  --all", true)].
Proof.
  rewrite enable_all_round_trip.
  - vm_compute. reflexivity.
  - intros L I. vm_compute in I.
    destruct I as [<-|[<-|[<-|[]]]]; intros P T;
      try discriminate P; split; vm_compute; reflexivity.
Defined.

(** An enabled disabled task whose command holds "=" is not read back. *)
Example enable_assignment_task_lost :
  map fieldsOf (parse 1 (envTask ++ nl))
  = [("0", "3", "*", "*", "*", "FOO=bar /bin/backup.sh", false)]
  /\ parse 2 (reconcile (map (setEnabled true) (parse 1 (envTask ++ nl)))
                        (envTask ++ nl)) = [].
Proof. split; vm_compute; reflexivity. Qed.

Section Relabel.

Lemma concatAll_map_ext {A : Type} (f g : A -> string) (l : list A) :
  (forall x, f x = g x) -> concatAll (map f l) = concatAll (map g l).
Proof. intros H. f_equal. apply map_ext, H. Qed.

End Relabel.

(** X18.  The identifiers and the comments of the submitted entries play
    no part in a save: whatever identifiers and comments the client sends,
    the reconciled text is the same. *)
Theorem reconcile_ignores_id_and_comment :
  forall (updatedEntries : list CrontabEntry) (output : string)
         (ids : CrontabEntry -> Z) (comments : CrontabEntry -> string),
    reconcile (map (fun e => setID (ids e) (setComment (comments e) e))
                   updatedEntries) output
    = reconcile updatedEntries output.
Proof.
  intros S output ids comments. rewrite !reconcile_shape. f_equal.
  - rewrite map_map. now apply concatAll_map_ext.
  - f_equal. apply preservedLines_ext. intros l.
    rewrite map_map. reflexivity.
Qed.

Section LineEndings.

Lemma dropCR_app_CR (l : string) : bufio.dropCR (l ++ CRs) = l.
Proof.
  induction l as [|c l IH]; [reflexivity|].
  cbn [append]. rewrite <- IH at 2.
  destruct (l ++ CRs) eqn:E; [|reflexivity].
  destruct l; discriminate E.
Qed.

Lemma unlinesCRLF_unlines (ls : list string) :
  unlinesCRLF ls = unlines (map (fun l => l ++ CRs) ls).
Proof.
  unfold unlinesCRLF, unlines. rewrite map_map. f_equal.
  apply map_ext. intros l. now rewrite app_assoc.
Qed.

Lemma scanLines_CRLF (ls : list string) :
  (forall l, In l ls ->
             hasByte LF l = false /\ strings.HasSuffix l CRs = false
             /\ bufio.fits (l ++ CRs) = true) ->
  bufio.scanLines (unlinesCRLF ls) = ls
  /\ bufio.scanLines (unlines ls) = ls.
Proof.
  intros H. split.
  - rewrite unlinesCRLF_unlines, scanLines_unlines.
    + rewrite map_map. rewrite <- (map_id ls) at 2.
      apply map_ext. intros l. apply dropCR_app_CR.
    + intros x I. apply in_map_iff in I as [l [<- I]].
      rewrite hasByte_app. destruct (H l I) as [-> _]. reflexivity.
    + intros x I. apply in_map_iff in I as [l [<- I]]. now apply H.
  - rewrite scanLines_unlines.
    + rewrite <- (map_id ls) at 2. apply map_ext_in.
      intros l I. now apply dropCR_stable, H.
    + intros l I. now apply H.
    + intros l I. destruct (H l I) as (_ & _ & F).
      apply fits_le with (l ++ CRs); [|exact F].
      rewrite length_app. lia.
Qed.

End LineEndings.

(** X19.  Line endings do not matter to the program: a store whose lines
    end with a carriage return and a newline is parsed into the same
    entries, and reconciled into the same text, as the store with the same
    lines ending with a newline alone; so a save rewrites such a store with
    plain newlines. *)
Theorem crlf_store_as_lf :
  forall (ls : list string),
    (forall l, In l ls ->
               hasByte LF l = false /\ strings.HasSuffix l CRs = false
               /\ bufio.fits (l ++ CRs) = true) ->
    (forall id, parse id (unlinesCRLF ls) = parse id (unlines ls))
    /\ (forall updatedEntries,
           reconcile updatedEntries (unlinesCRLF ls)
           = reconcile updatedEntries (unlines ls)).
Proof.
  intros ls H. destruct (scanLines_CRLF ls H) as [A B]. split.
  - intros id. now rewrite !parse_lines, A, B.
  - intros S. rewrite !reconcile_shape. unfold preservedLines.
    now rewrite A, B.
Qed.

Lemma crlf_store_as_lf_witness :
  (forall id,
     parse id (unlinesCRLF ["FOO=bar"; fooLine; "# 0 4 * * * /bin/rotate"])
     = parse id (unlines ["FOO=bar"; fooLine; "# 0 4 * * * /bin/rotate"]))
  /\ (forall updatedEntries,
        reconcile updatedEntries
                  (unlinesCRLF ["FOO=bar"; fooLine; "# 0 4 * * * /bin/rotate"])
        = reconcile updatedEntries
                    (unlines ["FOO=bar"; fooLine; "# 0 4 * * * /bin/rotate"])).
Proof.
  apply (crlf_store_as_lf ["FOO=bar"; fooLine; "# 0 4 * * * /bin/rotate"]).
  intros l [<-|[<-|[<-|[]]]]; repeat split; vm_compute; reflexivity.
Defined.
